(** * SLEEK: the semantic-search pipeline of [Sleek/semantic_search.py]

    A shallow embedding of the orchestration code: chunking of a book table,
    embedding of the chunks, persistence of the embedding matrix, retrieval of
    the nearest passages and the recall@k evaluator.

    Conventions of the embedding.
    - Python exceptions are values of [exn]; a computation that may raise has
      type [result A].  Code that touches the file system, the console or the
      index runs in [M], a state-and-exception monad over [World].
    - A Python float is represented by a rational ([Q]) and the arithmetic on
      floats by the exact one, which a double follows up to its rounding; so
      [round], here the rounding of the exact value with ties to even, may
      differ from Python's by one unit of the last digit kept where the double
      lies on the other side of a tie.  The statements on the evaluator are
      those that this difference does not touch: error paths, equalities
      between runs of the same operations, bounds that leave room for the
      error of the double arithmetic, and the values 0 and 1, which the
      double arithmetic reaches exactly.
    - The external capabilities (the sentence transformer, the text splitter,
      the nearest-neighbour index, the CSV writer and the pickle codec) are
      interfaces (type classes); the code is embedded once, for every
      implementation of them. *)

From Stdlib Require Import ZArith QArith Qround Lia Lqa Ascii String.
From stdpp Require Import base option list sorting gmap strings pretty countable.

#[local] Open Scope Z_scope.

(** ** Python runtime fragments *)

Module Py.

Inductive exn : Set :=
| ZeroDivisionError
| IndexError
| KeyError
| TypeError
| ValueError
| OSError
| EOFError
| UnpicklingError.

Inductive result (A : Type) : Type :=
| Ok (a : A)
| Raise (e : exn).
Arguments Ok {A} a.
Arguments Raise {A} e.

#[export] Instance result_ret : MRet result := λ A a, Ok a.
#[export] Instance result_bind : MBind result := λ A B f r,
  match r with
  | Ok a => f a
  | Raise e => Raise e
  end.

(** [len(l)] *)
Definition len {A} (l : list A) : Z := Z.of_nat (length l).

(** [l[i]]: a negative index counts from the end; outside the list it is an
    [IndexError]. *)
Definition getitem {A} (l : list A) (i : Z) : result A :=
  let j := if i <? 0 then i + len l else i in
  if (0 <=? j) && (j <? len l) then
    match l !! Z.to_nat j with
    | Some x => Ok x
    | None => Raise IndexError
    end
  else Raise IndexError.

(** [l[:stop]]: a negative [stop] counts from the end; the bound is clamped
    to the list. *)
Definition slice_to {A} (l : list A) (stop : Z) : list A :=
  let s := if stop <? 0 then Z.max (stop + len l) 0 else Z.min stop (len l) in
  take (Z.to_nat s) l.

(** [len(s)] on text: the number of code points, that is, in the UTF-8 bytes
    of the text, of the bytes that do not continue a character. *)
Definition str_len (s : string) : nat :=
  length (filter (λ c, ¬ (128 ≤ Ascii.nat_of_ascii c < 192)%nat)
            (String.list_ascii_of_string s)).

(** [range(n)] *)
Definition range (n : Z) : list Z := seqZ 0 n.

(** [enumerate(l)], materialised *)
Definition enumerate {A} (l : list A) : list (Z * A) :=
  imap (λ i x, (Z.of_nat i, x)) l.

(** [a / b] on numbers *)
Definition truediv (a b : Q) : result Q :=
  if Qeq_bool b 0 then Raise ZeroDivisionError else Ok (a / b)%Q.

(** [sum(l)]: starts from [0] and adds from the left. *)
Definition sum (l : list Q) : Q := foldl Qplus 0%Q l.

(** Nearest integer, ties to even. *)
Definition round_half_even (y : Q) : Z :=
  let f := Qfloor y in
  match (y - inject_Z f ?= 1 # 2)%Q with
  | Lt => f
  | Gt => f + 1
  | Eq => if Z.even f then f else f + 1
  end.

(** [round(x, ndigits)] *)
Definition round (x : Q) (ndigits : Z) : Q :=
  let scale := inject_Z (10 ^ ndigits) in
  (inject_Z (round_half_even (x * scale)) / scale)%Q.

(** [len(set(a) & set(b))] *)
Definition common (a b : list Z) : Z :=
  Z.of_nat (size ((list_to_set a : gset Z) ∩ list_to_set b)).

(** A [for] loop that threads an accumulator through a monad. *)
Fixpoint foldM `{MBind T, MRet T} {A B} (f : B → A → T B) (acc : B)
    (l : list A) : T B :=
  match l with
  | [] => mret acc
  | x :: l => acc' ← f acc x; foldM f acc' l
  end.

End Py.
Import Py.

(** ** The evaluator (lines 78-92) *)

(** [round(sum([len(set(ann[i]) & set(nn_gt[i])) / k
                for i in range(len(ann))]) / len(ann), 3)] *)
Definition compute_recall_at_k (nn_gt ann : list (list Z)) (k : Z) : result Q :=
  terms ← mapM (λ i,
             a ← getitem ann i;
             g ← getitem nn_gt i;
             truediv (inject_Z (common a g)) (inject_Z k))
           (range (len ann));
  mean ← truediv (Py.sum terms) (inject_Z (len ann));
  mret (Py.round mean 3).

(** recall@k as the specification words it, before the rounding: the mean
    over the queries of |approximate ∩ ground truth| / k, as an exact
    number. *)
Module RecallSpec.

Definition hit_ratio (k : Z) (approx gt : list Z) : Q :=
  (inject_Z (common approx gt) / inject_Z k)%Q.


End RecallSpec.

(** ** The world the pipeline runs in *)

(** The file system (contents by path, and the paths that cannot be opened for
    writing or for reading), the console, and the count of index searches.
    A file that has been opened for writing takes the bytes handed to
    [write]; that [to_csv] may give up after the opening is part of the
    description of the writer ([CsvWriter]). *)
Record World : Type := mkWorld {
  files : gmap string (list Byte.byte);
  write_denied : gset string;
  read_denied : gset string;
  stdout : list string;
  searches : nat
}.

Definition M (A : Type) : Type := World → result A * World.

#[export] Instance M_ret : MRet M := λ A a w, (Ok a, w).
#[export] Instance M_bind : MBind M := λ A B f m w,
  match m w with
  | (Ok a, w') => f a w'
  | (Raise e, w') => (Raise e, w')
  end.

(** A computation without effects, run in the world. *)
Definition lift {A} (r : result A) : M A := λ w, (r, w).

(** [try: body / except: handler] with a bare [except]: every exception is
    caught; the effects made before it stay. *)
Definition try_except {A} (body handler : M A) : M A := λ w,
  match body w with
  | (Ok a, w') => (Ok a, w')
  | (Raise _, w') => handler w'
  end.

(** [print(line)] *)
Definition print (line : string) : M unit := λ w,
  (Ok tt, mkWorld (files w) (write_denied w) (read_denied w)
            (stdout w ++ [line]) (searches w)).

(** [open(path, "wb")]: fails when the path cannot be opened for writing,
    otherwise the file is created or truncated.  The handle is the path. *)
Definition open_wb (path : string) : M string := λ w,
  if decide (path ∈ write_denied w) then (Raise OSError, w)
  else (Ok path, mkWorld (<[path := []]> (files w)) (write_denied w)
                   (read_denied w) (stdout w) (searches w)).

(** [f.write(data)] on a handle opened for writing *)
Definition write (f : string) (data : list Byte.byte) : M unit := λ w,
  (Ok tt, mkWorld (<[f := default [] (files w !! f) ++ data]> (files w))
            (write_denied w) (read_denied w) (stdout w) (searches w)).

(** [open(path, "rb")]: fails when the file is missing or unreadable. *)
Definition open_rb (path : string) : M string := λ w,
  if decide (path ∈ read_denied w) then (Raise OSError, w)
  else match files w !! path with
       | Some _ => (Ok path, w)
       | None => (Raise OSError, w)
       end.

(** [f.read()] on a handle opened for reading *)
Definition read (f : string) : M (list Byte.byte) := λ w,
  (Ok (default [] (files w !! f)), w).

(** ** Tables *)

(** A cell of a table is text or an integer; a column is a list of cells and
    a data frame maps column names to columns. *)
Inductive cell : Set :=
| Str (s : string)
| Int (n : Z).

#[export] Instance cell_eq_dec : EqDecision cell.
Proof. solve_decision. Defined.

Abbreviation Series := (list cell).
Abbreviation DataFrame := (gmap string (list cell)).

(** [df[name]] *)
Definition df_getitem (df : DataFrame) (name : string) : result Series :=
  match df !! name with
  | Some col => Ok col
  | None => Raise KeyError
  end.

(** [col.iloc[i]] *)
Definition iloc (col : Series) (i : Z) : result cell := getitem col i.

(** [pd.DataFrame.from_records(records,
       columns=["str_idx", "chunk_id", "chunk"])] on the triples the chunker
    collects. *)
Definition from_records (records : list (cell * Z * string)) : DataFrame :=
  <["str_idx" := (λ r, r.1.1) <$> records]>
    (<["chunk_id" := (λ r, Int r.1.2) <$> records]>
       (<["chunk" := (λ r, Str r.2) <$> records]> ∅)).

(** ** External capabilities *)

(** The sentence transformer: [model_encode] is [model.encode] on a batch.
    Its contract (one vector per text, in order, the same text giving the same
    vector) is the law [encode_texts]. *)
Class SentenceTransformer : Type := {
  vector : Type;
  embed : string → vector;
  model_encode : Series → result (list vector);
  encode_texts : ∀ texts, model_encode (Str <$> texts) = Ok (embed <$> texts)
}.

(** The recursive character splitter built with a chunk size and an overlap:
    [split_text size overlap text] is
    [RecursiveCharacterTextSplitter(chunk_size=size,
       chunk_overlap=overlap).split_text(text)]. *)
Class TextSplitter : Type := {
  split_text : Z → Q → string → result (list string)
}.

(** [DataFrame.to_csv] on a file it has opened: [csv_image] is what it writes
    for a table and [csv_error] the exception it ends with when it fails on
    the way (a value it cannot encode, a device that refuses the bytes);
    [csv_image] is then what it wrote before failing. *)
Class CsvWriter : Type := {
  csv_image : DataFrame → list Byte.byte;
  csv_error : DataFrame → option exn
}.

(** [pickle], on values that can be pickled: [dumps] is the image that
    [pickle.dump] writes, [loads] what [pickle.load] makes of the contents of
    a file, a value or the exception of the unpickler ([EOFError] on a file
    that ends too early, [UnpicklingError] on other contents that are not an
    image, among others); [loads] inverts [dumps]. *)
Class Pickle (A : Type) : Type := {
  dumps : A → list Byte.byte;
  loads : list Byte.byte → result A;
  loads_dumps : ∀ a, loads (dumps a) = Ok a
}.

(** A nearest-neighbour index over vectors of type [V]: a batch search
    answers with the distance rows and the index rows, one row per query. *)
Class Index (V : Type) : Type := {
  index : Type;
  search : index → list V → Z → result (list (list Q) * list (list Z))
}.

(** [index.search(queries, k)], counted in the world *)
Definition index_search {V} {lib : Index V} (ix : index) (queries : list V)
    (k : Z) : M (list (list Q) * list (list Z)) := λ w,
  (search ix queries k,
   mkWorld (files w) (write_denied w) (read_denied w) (stdout w)
     (S (searches w))).

(** ** The embedder (lines 24-38) *)

(** [model.encode(dataset[text_field][:rec_num])].  The dataset is a table or,
    as [create_book_chunks] may hand over, [None]; subscripting [None] is a
    [TypeError]. *)
Definition embedd_dataset {model : SentenceTransformer}
    (dataset : option DataFrame) (text_field : string) (rec_num : Z)
    : result (list vector) :=
  df ← match dataset with
       | Some df => Ok df
       | None => Raise TypeError
       end;
  col ← df_getitem df text_field;
  model_encode (slice_to col rec_num).

(** ** The retriever (lines 100-104) *)

(** One element of the comprehension of line 103:
    [(chunks[idx], distances[0][i])]. *)
Definition passage {C} (chunks : list C) (distances : list (list Q))
    (entry : Z * Z) : result (C * Q) :=
  let '(i, idx) := entry in
  chunk ← getitem chunks idx;
  drow ← getitem distances 0;
  d ← getitem drow i;
  mret (chunk, d).

Definition retrieve_top_passages {model : SentenceTransformer}
    {lib : Index vector} {C} (query : string) (ix : index) (chunks : list C)
    (top_n : Z) : M (list (C * Q)) :=
  query_embedding ← lift (model_encode [Str query]);
  '(distances, indices) ← index_search ix query_embedding top_n;
  row ← lift (getitem indices 0);
  lift (mapM (passage chunks distances) (enumerate row)).

(** ** The chunker (lines 107-137) *)

(** A cell that is not text makes the splitter raise [TypeError]. *)
Definition create_splits {splitter : TextSplitter} (texts : cell)
    (split_chunk_size : Z) (split_overlap : Q) : M (list string) :=
  match texts with
  | Str text =>
      texts_chunks ← lift (split_text split_chunk_size split_overlap text);
      _ ← print ("Created " +:+ pretty (length texts_chunks) +:+
                 " chunks from " +:+ pretty (str_len text) +:+
                 " documents (passages)");
      mret texts_chunks
  | Int _ => lift (Raise TypeError)
  end.

(** The rows [(chapter_idx, j, c_chunk)] of one chapter (lines 130-131). *)
Definition chapter_rows (chapter_idx : cell) (chapter_chunks : list string)
    : list (cell * Z * string) :=
  (λ '(j, c_chunk), (chapter_idx, j, c_chunk)) <$> enumerate chapter_chunks.

(** The body of the loop over the chapters (lines 128-131). *)
Definition chapter_step {splitter : TextSplitter} (book_df : DataFrame)
    (split_chunk_size : Z) (split_overlap : Q)
    (chunks : list (cell * Z * string)) (entry : Z * cell)
    : M (list (cell * Z * string)) :=
  let '(i, chapter_content) := entry in
  chapter_idx ← lift (col ← df_getitem book_df "str_idx"; iloc col i);
  chapter_chunks ← create_splits chapter_content split_chunk_size
                     split_overlap;
  mret (chunks ++ chapter_rows chapter_idx chapter_chunks).

(** [df.to_csv(path, index=False)]: the file is opened, which creates or
    truncates it, and the rendering is written; a failure of the opening or of
    the rendering is raised. *)
Definition to_csv {csv : CsvWriter} (df : DataFrame) (path : string)
    : M unit :=
  f ← open_wb path;
  _ ← write f (csv_image df);
  match csv_error df with
  | Some e => lift (Raise e)
  | None => mret tt
  end.

Definition create_book_chunks {splitter : TextSplitter} {csv : CsvWriter}
    (book_df : DataFrame) (split_chunk_size : Z) (split_overlap : Q)
    : M (option DataFrame) :=
  contents ← lift (df_getitem book_df "processed_content");
  chunks ← foldM (chapter_step book_df split_chunk_size split_overlap) []
             (enumerate contents);
  try_except
    (let chunks_df := from_records chunks in
     _ ← to_csv chunks_df "data/chunks.csv";
     mret (Some chunks_df))
    (_ ← print "chunks CSV file could not be created.";
     mret None).

(** ** Retrieval over the query list (lines 140-144) *)

Definition retrieve {model : SentenceTransformer} {lib : Index vector} {C}
    (ix : index) (chunks : list C) : M unit :=
  let queries : list string := [] in
  let retrieval_results : gmap string (list (C * Q)) :=
    list_to_map ((λ query, (query, [])) <$> queries) in
  _ ← foldM (λ results query,
         passages ← retrieve_top_passages query ix chunks 5;
         mret (<[query := passages]> results))
       retrieval_results queries;
  mret tt.

(** ** Persistence (lines 147-155) *)

Definition save_embeddings {A} {codec : Pickle A} (embeddings : A)
    (file_path : string) : M unit :=
  f ← open_wb file_path;
  write f (dumps embeddings).

Definition load_embeddings {A} {codec : Pickle A} (file_path : string)
    : M A :=
  f ← open_rb file_path;
  data ← read f;
  lift (loads data).

(** ** Index construction (lines 41-71) *)

(** The index library: the two constructors and [index.add].  An index object
    is updated in place by [add]; the embedding passes the updated index
    on. *)
Class Faiss (V : Type) : Type := {
  faiss_index : Index V;
  IndexFlatL2 : Z → result (@index V faiss_index);
  IndexLSH : Z → Z → result (@index V faiss_index);
  index_add : @index V faiss_index → list V → result (@index V faiss_index)
}.
#[export] Existing Instance faiss_index.

(** [dim] is the shape tuple of the embeddings; only [dim[1]] is read. *)
Definition build_faiss_flatl2_index {V} {faiss : Faiss V}
    (embeddings : list V) (dim : list Z) : result index :=
  d ← getitem dim 1;
  ix ← IndexFlatL2 d;
  index_add ix embeddings.

Definition build_faiss_lsh_index {V} {faiss : Faiss V} (embeddings : list V)
    (dim nbits : Z) : result index :=
  ix ← IndexLSH dim nbits;
  index_add ix embeddings.

(** [index.add(sentence_embeddings)]: the value is the index after the
    call. *)
Definition train_index {V} {faiss : Faiss V} (ix : index)
    (sentence_embeddings : list V) : result index :=
  index_add ix sentence_embeddings.

(** ** Loading the tables and the entry point (lines 19-21, 95-97, 158-173) *)

(** [pd.read_csv] on the contents of a file. *)
Class CsvReader : Type := {
  read_csv : list Byte.byte → result DataFrame
}.

(** [embeddings.shape] *)
Class NdArray (V : Type) : Type := {
  shape : list V → list Z
}.

(** [SentenceTransformer(EMBEDDING_MODEL)]: the model at hand. *)
Definition embedding_model {model : SentenceTransformer}
    : SentenceTransformer := model.

Definition load_df {reader : CsvReader} (dir_path file_name file_fmt : string)
    : M DataFrame :=
  let file_path := dir_path +:+ "/" +:+ file_name +:+ "." +:+ file_fmt in
  f ← open_rb file_path;
  data ← read f;
  lift (read_csv data).

Definition main {model : SentenceTransformer} {reader : CsvReader}
    {splitter : TextSplitter} {csv : CsvWriter}
    {codec : Pickle (list vector)} {np : NdArray vector}
    {faiss : Faiss vector} : M unit :=
  book_df ← load_df "data" "book_df" "csv";
  passages_df ← load_df "data" "passages_df" "csv";
  chunks_df ← create_book_chunks book_df 1000 (3 # 10);
  embeddings ← lift (embedd_dataset (model:=embedding_model) chunks_df
                       "chunk" (-1));
  _ ← save_embeddings embeddings "data/embeddings.pkl";
  let embeddings_shape := shape embeddings in
  ix ← lift (build_faiss_flatl2_index embeddings embeddings_shape);
  mret tt.

(** ** Vocabulary of the statements *)

(** A path that can be opened for reading: it is not protected and the file
    exists. *)
Definition readable (w : World) (path : string) : Prop :=
  (path ∉ read_denied w) ∧ is_Some (files w !! path).



(** Two worlds that differ at most by what was printed. *)
Definition same_store (w w' : World) : Prop :=
  files w' = files w ∧ write_denied w' = write_denied w
  ∧ read_denied w' = read_denied w ∧ searches w' = searches w.

(** The (parent identifier, sequence index) pairs of the rows of a list of
    chapters, each chapter given by its identifier and its chunks. *)
Definition block_pairs (blocks : list (cell * list string)) : list (cell * Z) :=
  concat ((λ b, (λ j, (b.1, j)) <$> seqZ 0 (len b.2)) <$> blocks).

(** The rows of the chunk table of a book whose chapters have the identifiers
    [ids] and were cut into [partss]: chapter after chapter, the chunks of the
    chapter under its identifier, numbered from 0. *)
Definition book_rows (ids : Series) (partss : list (list string))
    : list (cell * Z * string) :=
  concat (zip_with chapter_rows ids partss).

(** The splitter cuts the texts [contents], in order, into [partss]. *)
Definition cut_into {splitter : TextSplitter} (size : Z) (overlap : Q)
    (contents : Series) (partss : list (list string)) : Prop :=
  Forall2 (λ c parts, ∃ text,
             c = Str text ∧ split_text size overlap text = Ok parts)
    contents partss.

(** The term of query [i] in the comprehension of line 92. *)
Definition recall_term (nn_gt ann : list (list Z)) (k : Z) (i : Z) : result Q :=
  a ← getitem ann i;
  g ← getitem nn_gt i;
  truediv (inject_Z (common a g)) (inject_Z k).

(** The number of rows that [[:rec_num]] keeps of [n] rows. *)
Definition kept_rows (n rec_num : Z) : Z :=
  if rec_num <? 0 then Z.max (n + rec_num) 0 else Z.min rec_num n.

(** The file at [path] can be read and parses as the table [df]. *)
Definition table_at {reader : CsvReader} (w : World) (path : string)
    (df : DataFrame) : Prop :=
  (path ∉ read_denied w)
  ∧ ∃ data, files w !! path = Some data ∧ read_csv data = Ok df.

(** A book table with as many identifiers as texts, every text being one the
    splitter accepts with the chunk size and overlap of [main]. *)
Definition book_ready {splitter : TextSplitter} (book_df : DataFrame)
    (ids contents : Series) : Prop :=
  book_df !! "str_idx" = Some ids
  ∧ book_df !! "processed_content" = Some contents
  ∧ length ids = length contents
  ∧ Forall (λ c, ∃ text parts,
              c = Str text ∧ split_text 1000 (3 # 10) text = Ok parts)
      contents.

(** What [main] does once the two tables are loaded (lines 162-173). *)
Definition main_pipeline {model : SentenceTransformer}
    {splitter : TextSplitter} {csv : CsvWriter}
    {codec : Pickle (list vector)} {np : NdArray vector}
    {faiss : Faiss vector} (book_df : DataFrame) : M unit :=
  chunks_df ← create_book_chunks book_df 1000 (3 # 10);
  embeddings ← lift (embedd_dataset (model:=embedding_model) chunks_df
                       "chunk" (-1));
  _ ← save_embeddings embeddings "data/embeddings.pkl";
  let embeddings_shape := shape embeddings in
  ix ← lift (build_faiss_flatl2_index embeddings embeddings_shape);
  mret tt.

(** ** Reference implementations of the capabilities

    Small executable implementations of the interfaces, on which the pipeline
    can be run on concrete tables. *)

Module Reference.

(** Cuts a text into consecutive windows of [size] characters; a non-empty
    text of at most [size] characters is one chunk, the text itself. *)
Fixpoint windows (fuel size : nat) (text : string) : list string :=
  match fuel with
  | O => []
  | S fuel =>
      if decide (text = "") then []
      else String.substring 0 size text
             :: windows fuel size
                  (String.substring size (String.length text - size) text)
  end.

Definition window_splitter : TextSplitter := {|
  split_text size overlap text :=
    if size <=? 0 then Raise ValueError
    else Ok (windows (String.length text) (Z.to_nat size) text)
|}.

(** Embeds a text as (its length, the number of its blanks). *)
Definition blanks (text : string) : Z :=
  len (filter (λ c, c = " "%char) (String.list_ascii_of_string text)).

Definition count_embed (text : string) : list Z :=
  [Z.of_nat (String.length text); blanks text].

Definition count_encode (col : Series) : result (list (list Z)) :=
  mapM (λ c, match c with
             | Str s => Ok (count_embed s)
             | Int _ => Raise TypeError
             end) col.

Lemma count_encode_texts texts :
  count_encode (Str <$> texts) = Ok (count_embed <$> texts).
Proof.
  unfold count_encode. induction texts as [|t texts IH]; [done|].
  cbn [fmap list_fmap mapM]. fold (fmap (M:=list) Str texts).
  fold (fmap (M:=list) count_embed texts). by rewrite IH.
Qed.

Definition count_model : SentenceTransformer := {|
  vector := list Z;
  embed := count_embed;
  model_encode := count_encode;
  encode_texts := count_encode_texts
|}.

(** The exact index: stored vectors are ranked by squared Euclidean distance
    to the query and the [k] nearest are returned, nearest first. *)
Definition sq_dist (u v : list Z) : Z :=
  foldr Z.add 0 (zip_with (λ a b, (a - b) * (a - b)) u v).

Definition nearer (a b : Z * Z) : Prop := a.1 ≤ b.1.

#[local] Instance nearer_dec : RelDecision nearer := λ a b, decide (a.1 ≤ b.1).

Definition nearest (stored : list (list Z)) (k : Z) (q : list Z)
    : list (Z * Z) :=
  take (Z.to_nat k)
    (merge_sort nearer (imap (λ i v, (sq_dist q v, Z.of_nat i)) stored)).

Definition flat_index : Index (list Z) := {|
  index := list (list Z);
  search stored queries k :=
    let answers := nearest stored k <$> queries in
    Ok ((λ row, (λ a : Z * Z, inject_Z a.1) <$> row) <$> answers,
        (λ row, (λ a : Z * Z, a.2) <$> row) <$> answers)
|}.

(** A table rendered one column per line: the name, then the cells. *)
Definition cell_text (c : cell) : string :=
  match c with
  | Str s => s
  | Int n => pretty n
  end.

Definition lines (df : DataFrame) : list Byte.byte :=
  String.list_byte_of_string
    (String.concat (String (Ascii.ascii_of_nat 10) "")
       ((λ '(name, col), String.concat "," (name :: (cell_text <$> col)))
          <$> map_to_list df)).

Definition line_csv : CsvWriter := {|
  csv_image := lines;
  csv_error df := None
|}.

(** The same writer with the ASCII encoding: on a table with a character
    outside ASCII it fails with [ValueError] before a byte is written. *)
Definition is_ascii (s : string) : bool :=
  forallb (λ c, Nat.ltb (Ascii.nat_of_ascii c) 128)
    (String.list_ascii_of_string s).

Definition ascii_table (df : DataFrame) : bool :=
  forallb (λ '(name, col), forallb (λ c, is_ascii (cell_text c)) col)
    (map_to_list df).

Definition ascii_csv : CsvWriter := {|
  csv_image df := if ascii_table df then lines df else [];
  csv_error df := if ascii_table df then None else Some ValueError
|}.

(** A codec for every countable type: a header byte, then the bits of the
    code, one per byte.  An empty file ends too early; other contents that
    are not an image are rejected. *)
Fixpoint pos_bytes (p : positive) : list Byte.byte :=
  match p with
  | xH => []
  | xO p => Byte.x00 :: pos_bytes p
  | xI p => Byte.x01 :: pos_bytes p
  end.

Fixpoint bytes_pos (bs : list Byte.byte) : option positive :=
  match bs with
  | [] => Some xH
  | Byte.x00 :: bs => xO <$> bytes_pos bs
  | Byte.x01 :: bs => xI <$> bytes_pos bs
  | _ => None
  end.

Lemma bytes_pos_bytes p : bytes_pos (pos_bytes p) = Some p.
Proof. induction p as [p IH|p IH|]; cbn; by rewrite ?IH. Qed.

Definition bit_dumps `{Countable A} (a : A) : list Byte.byte :=
  Byte.x80 :: pos_bytes (encode a).

Definition bit_loads `{Countable A} (bs : list Byte.byte) : result A :=
  match bs with
  | [] => Raise EOFError
  | Byte.x80 :: bs =>
      match bytes_pos bs ≫= decode with
      | Some a => Ok a
      | None => Raise UnpicklingError
      end
  | _ => Raise UnpicklingError
  end.

Lemma bit_loads_dumps `{Countable A} (a : A) : bit_loads (bit_dumps a) = Ok a.
Proof.
  unfold bit_loads, bit_dumps. rewrite bytes_pos_bytes. cbn.
  by rewrite decode_encode.
Qed.

Definition bit_pickle `{Countable A} : Pickle A := {|
  dumps := bit_dumps;
  loads := bit_loads;
  loads_dumps := bit_loads_dumps
|}.

(** A world with an empty, unprotected file system. *)
Definition empty_world : World := mkWorld ∅ ∅ ∅ [] 0.


(** The same world with [path] closed to writing. *)
Definition deny_write (path : string) (w : World) : World :=
  mkWorld (files w) ({[path]} ∪ write_denied w) (read_denied w) (stdout w)
    (searches w).

(** A two-chapter book. *)
Definition book : DataFrame :=
  <["str_idx" := [Str "ch1"; Str "ch2"]]>
    (<["processed_content" := [Str "call me ishmael"; Str "loomings"]]> ∅).

(** A book whose two rows carry the same identifier. *)
Definition book_twice : DataFrame :=
  <["str_idx" := [Str "ch1"; Str "ch1"]]>
    (<["processed_content" := [Str "call me ishmael"; Str "loomings"]]> ∅).

(** A one-chapter book with an accented word. *)
Definition book_accent : DataFrame :=
  <["str_idx" := [Str "ch1"]]> (<["processed_content" := [Str "au café"]]> ∅).

(** Tables are countable, so the bit codec writes and reads them. *)
Definition cell_to_sum (c : cell) : string + Z :=
  match c with
  | Str s => inl s
  | Int n => inr n
  end.

Definition sum_to_cell (x : string + Z) : cell :=
  match x with
  | inl s => Str s
  | inr n => Int n
  end.

Lemma sum_to_cell_to_sum c : sum_to_cell (cell_to_sum c) = c.
Proof. by destruct c. Qed.

#[local] Instance cell_countable : Countable cell :=
  inj_countable' cell_to_sum sum_to_cell sum_to_cell_to_sum.

Definition table_csv : CsvWriter := {|
  csv_image := bit_dumps (A:=DataFrame);
  csv_error df := None
|}.

Definition table_reader : CsvReader := {|
  read_csv data :=
    match bit_loads (A:=DataFrame) data with
    | Ok df => Ok df
    | Raise _ => Raise ValueError
    end
|}.

(** The shape of a list of rows: (rows, columns), or (0,) without rows. *)
Definition row_shape : NdArray (list Z) := {|
  shape rows :=
    match rows with
    | [] => [0]
    | row :: _ => [len rows; len row]
    end
|}.

(** The exact index with its constructors: an index starts empty and [add]
    appends the vectors. *)
Definition flat_faiss : Faiss (list Z) := {|
  faiss_index := flat_index;
  IndexFlatL2 d := if d <=? 0 then Raise ValueError else Ok [];
  IndexLSH d nbits := if (d <=? 0) || (nbits <=? 0) then Raise ValueError
                      else Ok [];
  index_add ix vs := Ok (ix ++ vs)
|}.

(** The exact index answering with exactly [k] entries per query: when fewer
    vectors are stored, the answer is filled up with the index [-1]. *)
Definition padded (k : Z) (row : list (Z * Z)) : list (Z * Z) :=
  row ++ replicate (Z.to_nat k - length row) (2 ^ 64, -1).

Definition padded_index : Index (list Z) := {|
  index := list (list Z);
  search stored queries k :=
    let answers := (λ q, padded k (nearest stored k q)) <$> queries in
    Ok ((λ row, (λ a : Z * Z, inject_Z a.1) <$> row) <$> answers,
        (λ row, (λ a : Z * Z, a.2) <$> row) <$> answers)
|}.

(** The same world with [path] closed to reading. *)
Definition deny_read (path : string) (w : World) : World :=
  mkWorld (files w) (write_denied w) ({[path]} ∪ read_denied w) (stdout w)
    (searches w).

(** A world that holds the two input tables. *)
Definition library_world : World :=
  mkWorld (<["data/book_df.csv" := bit_dumps book]>
             (<["data/passages_df.csv" := bit_dumps (∅ : DataFrame)]> ∅))
    ∅ ∅ [] 0.

(** The chunk table of the two-chapter book cut into windows of six
    characters: three chunks for the first chapter, two for the second. *)
Definition book_chunks_df : DataFrame :=
  from_records
    [(Str "ch1", 0, "call m"); (Str "ch1", 1, "e ishm"); (Str "ch1", 2, "ael");
     (Str "ch2", 0, "loomin"); (Str "ch2", 1, "gs")].

End Reference.

(** * Properties *)

(** ** Lists, numbers and the monad *)

Section PyFacts.
Context {A : Type}.
Implicit Types (l : list A) (x : A).

Lemma getitem_lookup l (n : nat) x :
  l !! n = Some x → getitem l (Z.of_nat n) = Ok x.
Proof.
  intros Hn. pose proof (lookup_lt_Some _ _ _ Hn) as Hlt.
  unfold getitem, len.
  destruct (Z.ltb_spec (Z.of_nat n) 0) as [?|_]; [lia|].
  destruct (Z.leb_spec 0 (Z.of_nat n)) as [_|?]; [|lia].
  destruct (Z.ltb_spec (Z.of_nat n) (Z.of_nat (length l))) as [_|?]; [|lia].
  cbn. by rewrite Nat2Z.id, Hn.
Qed.

Lemma getitem_Ok_nonneg l (n : nat) x :
  getitem l (Z.of_nat n) = Ok x → l !! n = Some x.
Proof.
  unfold getitem, len.
  destruct (Z.ltb_spec (Z.of_nat n) 0) as [?|_]; [lia|].
  destruct (_ && _); [|discriminate].
  rewrite Nat2Z.id. destruct (l !! n); [|discriminate]. congruence.
Qed.

Lemma getitem_in_range l (i : Z) :
  - len l ≤ i < len l → ∃ x, getitem l i = Ok x.
Proof.
  intros Hi. unfold getitem.
  set (j := if i <? 0 then i + len l else i).
  assert (0 ≤ j < len l) as Hj.
  { unfold j. destruct (Z.ltb_spec i 0); lia. }
  destruct (Z.leb_spec 0 j); [|lia]. destruct (Z.ltb_spec j (len l)); [|lia].
  cbn. destruct (l !! Z.to_nat j) as [x|] eqn:Hx; [by exists x|].
  apply lookup_ge_None in Hx. unfold len in Hj. lia.
Qed.

Lemma slice_to_minus_one l : slice_to l (-1) = take (length l - 1) l.
Proof. unfold slice_to, len. cbn. f_equal. lia. Qed.

Lemma enumerate_lookup l (i : nat) :
  enumerate l !! i = (λ x, (Z.of_nat i, x)) <$> l !! i.
Proof. unfold enumerate. by rewrite list_lookup_imap. Qed.

Lemma enumerate_length l : length (enumerate l) = length l.
Proof. unfold enumerate. apply length_imap. Qed.

End PyFacts.

Lemma mapM_result_Forall2 {A B} (f : A → result B) (xs : list A) (ys : list B) :
  Forall2 (λ x y, f x = Ok y) xs ys → mapM f xs = Ok ys.
Proof.
  induction 1 as [|x y xs ys Hx _ IH]; [done|].
  cbn. rewrite Hx. cbn. rewrite IH. done.
Qed.

Lemma mapM_result_total {A B} (f : A → result B) (xs : list A) :
  Forall (λ x, ∃ y, f x = Ok y) xs →
  ∃ ys, mapM f xs = Ok ys ∧ Forall2 (λ x y, f x = Ok y) xs ys.
Proof.
  induction 1 as [|x xs [y Hy] _ (ys & Hys & Hall)].
  - by exists [].
  - exists (y :: ys). split; [|by constructor].
    cbn. rewrite Hy. cbn. by rewrite Hys.
Qed.

Lemma truediv_nonzero (a : Q) (k : Z) :
  k ≠ 0 → truediv a (inject_Z k) = Ok (a / inject_Z k)%Q.
Proof.
  intros Hk. unfold truediv.
  destruct (Qeq_bool (inject_Z k) 0) eqn:E; [|done].
  apply Qeq_bool_eq in E. unfold Qeq in E. cbn in E. lia.
Qed.

Lemma sum_foldr (l : list Q) : (Py.sum l == foldr Qplus 0 l)%Q.
Proof.
  unfold Py.sum.
  assert (∀ acc, (foldl Qplus acc l == acc + foldr Qplus 0 l)%Q) as Hgen.
  { induction l as [|q l IH]; intros acc; cbn.
    - symmetry. apply Qplus_0_r.
    - rewrite IH. symmetry. apply Qplus_assoc. }
  rewrite Hgen. apply Qplus_0_l.
Qed.






Lemma bind_run {A B} (m : M A) (f : A → M B) (w : World) :
  (m ≫= f) w = match m w with
               | (Ok a, w1) => f a w1
               | (Raise e, w1) => (Raise e, w1)
               end.
Proof. reflexivity. Qed.

Lemma bind_Ok {A B} (m : M A) (f : A → M B) (w w' : World) (b : B) :
  (m ≫= f) w = (Ok b, w') →
  ∃ a w1, m w = (Ok a, w1) ∧ f a w1 = (Ok b, w').
Proof.
  rewrite bind_run. destruct (m w) as [[a|e] w1]; [|done].
  intros Hf. by exists a, w1.
Qed.

Lemma same_store_refl w : same_store w w.
Proof. by repeat split. Qed.

Lemma same_store_trans w1 w2 w3 :
  same_store w1 w2 → same_store w2 w3 → same_store w1 w3.
Proof. intros (?&?&?&?) (?&?&?&?). repeat split; congruence. Qed.

(** ** The evaluator *)

(** The comprehension of line 92 computes the hit ratios of the paired rows. *)
Lemma recall_terms (nn_gt ann : list (list Z)) (k : Z) :
  length nn_gt = length ann → k ≠ 0 →
  mapM (λ i, a ← getitem ann i; g ← getitem nn_gt i;
             truediv (inject_Z (common a g)) (inject_Z k))
       (range (len ann))
  = Ok (zip_with (RecallSpec.hit_ratio k) ann nn_gt).
Proof.
  intros Hlen Hk. apply mapM_result_Forall2.
  apply Forall2_same_length_lookup_2.
  { unfold range, len. rewrite length_seqZ, length_zip_with, Nat2Z.id. lia. }
  intros i z q Hz Hq. apply lookup_seqZ in Hz as [-> _].
  apply lookup_zip_with_Some in Hq as (a & g & -> & Ha & Hg).
  rewrite Z.add_0_l, (getitem_lookup _ _ _ Ha). cbn.
  rewrite (getitem_lookup _ _ _ Hg). cbn. by apply truediv_nonzero.
Qed.

Lemma compute_recall_at_k_unfold (nn_gt ann : list (list Z)) (k : Z) :
  ann ≠ [] → length nn_gt = length ann → k ≠ 0 →
  compute_recall_at_k nn_gt ann k
  = Ok (Py.round (Py.sum (zip_with (RecallSpec.hit_ratio k) ann nn_gt)
                  / inject_Z (len ann)) 3).
Proof.
  intros Hne Hlen Hk. unfold compute_recall_at_k.
  rewrite (recall_terms _ _ _ Hlen Hk). cbn.
  rewrite truediv_nonzero; [done|].
  unfold len. destruct ann; [done|]. cbn [length]. lia.
Qed.







(** The two examples of the specification. *)
Example recall_disjoint_example :
  compute_recall_at_k [[0; 1; 2]] [[3; 4; 5]] 3 = Ok (0 # 1000)%Q.
Proof. by vm_compute. Qed.

Example recall_equal_example :
  compute_recall_at_k [[0; 1; 2]] [[0; 1; 2]] 3 = Ok (1000 # 1000)%Q.
Proof. by vm_compute. Qed.

(** C10, as amended: on an empty batch [ann], whatever the ground truth and
    [k], [compute_recall_at_k] raises [ZeroDivisionError]; with [k = 0], a
    non-empty batch and a non-empty ground truth it raises
    [ZeroDivisionError] too. *)
Theorem compute_recall_at_k_division_by_zero :
  (∀ (nn_gt : list (list Z)) (k : Z),
     compute_recall_at_k nn_gt [] k = Raise ZeroDivisionError)
  ∧ (∀ nn_gt ann : list (list Z), ann ≠ [] → nn_gt ≠ [] →
       compute_recall_at_k nn_gt ann 0 = Raise ZeroDivisionError).
Proof.
  split.
  - intros nn_gt k. reflexivity.
  - intros [|g nn_gt] [|a ann] Ha Hg; try done.
    unfold compute_recall_at_k, range, len. cbn [length].
    rewrite seqZ_cons by lia. cbn [mapM].
    replace (getitem (a :: ann) 0) with (Ok a) by reflexivity.
    replace (getitem (g :: nn_gt) 0) with (Ok g) by reflexivity.
    reflexivity.
Qed.

(** The theorem on an empty batch, and on one query with [k = 0]. *)
Lemma compute_recall_at_k_division_by_zero_witness :
  compute_recall_at_k [[0; 1]] [] 2 = Raise ZeroDivisionError
  ∧ compute_recall_at_k [[4; 5]] [[4; 6]] 0 = Raise ZeroDivisionError.
Proof.
  destruct compute_recall_at_k_division_by_zero as [Hempty Hzero].
  split; [apply Hempty|by apply Hzero].
Defined.

(** C10 as stated fails: with [k = 0], a non-empty batch and an empty ground
    truth, [nn_gt[0]] is evaluated before the division and the error is an
    [IndexError]. *)
Lemma compute_recall_at_k_short_ground_truth :
  compute_recall_at_k [] [[1]] 0 = Raise IndexError.
Proof. by vm_compute. Qed.

(** ** Retrieval *)

(** C9: [retrieve] loops over an empty query list: it returns [None] and
    leaves the world as it found it; in particular no search is issued and
    nothing is printed or written. *)
Theorem retrieve_runs_no_query {model : SentenceTransformer}
    {lib : Index vector} {C} (ix : index) (chunks : list C) (w : World) :
  retrieve ix chunks w = (Ok tt, w)
  ∧ searches (retrieve ix chunks w).2 = searches w.
Proof. split; reflexivity. Qed.

Lemma retrieve_top_passages_unfold {model : SentenceTransformer}
    {lib : Index vector} {C} (query : string) (ix : index) (chunks : list C)
    (top_n : Z) (w : World) distances indices irow :
  search ix [embed query] top_n = Ok (distances, indices) →
  getitem indices 0 = Ok irow →
  retrieve_top_passages query ix chunks top_n w
  = (mapM (passage chunks distances) (enumerate irow),
     mkWorld (files w) (write_denied w) (read_denied w) (stdout w)
       (S (searches w))).
Proof.
  intros Hs Hi. unfold retrieve_top_passages, mbind, M_bind, lift at 1.
  rewrite (encode_texts [query]). cbn [fmap list_fmap].
  unfold index_search. rewrite Hs. unfold lift. by rewrite Hi.
Qed.

(** C4: when the one batch search of the embedded query answers with
    [distances] and [indices] whose first rows [drow] and [irow] have the same
    length, at most [top_n], the indices being positions of [chunks] and the
    distances in non-decreasing order, [retrieve_top_passages] issues that one
    search and returns at most [top_n] pairs, the [i]-th being
    [(chunks[indices[0][i]], distances[0][i])], in non-decreasing order of
    distance. *)
Theorem retrieve_top_passages_pairs {model : SentenceTransformer}
    {lib : Index vector} {C : Type} (query : string) (ix : index)
    (chunks : list C) (top_n : Z) (w : World) (distances : list (list Q))
    (indices : list (list Z)) (drow : list Q) (irow : list Z) :
  search ix [embed query] top_n = Ok (distances, indices) →
  getitem distances 0 = Ok drow →
  getitem indices 0 = Ok irow →
  length drow = length irow →
  len irow ≤ top_n →
  Forall (λ idx, - len chunks ≤ idx < len chunks) irow →
  Sorted Qle drow →
  ∃ results w',
    retrieve_top_passages query ix chunks top_n w = (Ok results, w')
    ∧ searches w' = S (searches w)
    ∧ len results ≤ top_n
    ∧ length results = length irow
    ∧ (∀ (i : nat) idx d, irow !! i = Some idx → drow !! i = Some d →
         ∃ chunk, getitem chunks idx = Ok chunk
                  ∧ results !! i = Some (chunk, d))
    ∧ Sorted Qle (results.*2).
Proof.
  intros Hsearch Hdrow Hirow Hlen Htop Hvalid Hsorted.
  rewrite (retrieve_top_passages_unfold query ix chunks top_n w
             distances indices irow Hsearch Hirow).
  destruct (mapM_result_total (passage chunks distances) (enumerate irow))
    as (results & Hrun & Hall).
  { apply list.Forall_forall. intros [i idx] Hin.
    apply list_elem_of_lookup in Hin as [n Hn].
    rewrite enumerate_lookup in Hn.
    destruct (irow !! n) as [idx'|] eqn:Hidx; [|done].
    cbn in Hn. injection Hn as <- <-.
    assert (- len chunks ≤ idx' < len chunks) as Hrange.
    { eapply (proj1 (list.Forall_forall _ _) Hvalid).
      apply list_elem_of_lookup. by exists n. }
    destruct (getitem_in_range chunks idx' Hrange) as [chunk Hchunk].
    destruct (lookup_lt_is_Some_2 drow n) as [d Hd].
    { rewrite Hlen. by eapply lookup_lt_Some. }
    exists (chunk, d). cbn. rewrite Hchunk. cbn. rewrite Hdrow. cbn.
    by rewrite (getitem_lookup _ _ _ Hd). }
  pose proof Hall as Hrlen. apply Forall2_length in Hrlen.
  rewrite enumerate_length in Hrlen.
  assert (∀ (i : nat) idx d, irow !! i = Some idx → drow !! i = Some d →
            ∃ chunk, getitem chunks idx = Ok chunk
                     ∧ results !! i = Some (chunk, d)) as Hpairs.
  { intros i idx d Hidx Hd.
    destruct (lookup_lt_is_Some_2 results i) as [[chunk d'] Hr].
    { rewrite <- Hrlen. by eapply lookup_lt_Some. }
    assert (enumerate irow !! i = Some (Z.of_nat i, idx)) as He.
    { by rewrite enumerate_lookup, Hidx. }
    pose proof (Forall2_lookup_lr _ _ _ _ _ _ Hall He Hr) as Hp.
    cbn in Hp. destruct (getitem chunks idx) as [chunk0|] eqn:Hc; [|done].
    cbn in Hp. rewrite Hdrow in Hp.
    cbn in Hp. rewrite (getitem_lookup _ _ _ Hd) in Hp. cbn in Hp.
    injection Hp as <- <-. by exists chunk0. }
  assert (results.*2 = drow) as Hsnd.
  { apply list_eq_same_length with (length drow);
      [done|rewrite length_fmap; lia|].
    intros i d d' Hi Hd Hd'.
    destruct (lookup_lt_is_Some_2 irow i) as [idx Hidx]; [lia|].
    destruct (Hpairs i idx d' Hidx Hd') as (chunk & _ & Hr).
    rewrite list_lookup_fmap, Hr in Hd. cbn in Hd. congruence. }
  exists results, (mkWorld (files w) (write_denied w) (read_denied w)
                    (stdout w) (S (searches w))).
  split; [by rewrite Hrun|]. split; [done|].
  split; [unfold len in *; lia|]. split; [lia|].
  split; [done|]. by rewrite Hsnd.
Qed.

(** The theorem on the exact index over three stored vectors, for the two
    passages nearest to a query. *)
Lemma retrieve_top_passages_pairs_witness :
  ∃ results w',
    retrieve_top_passages (model:=Reference.count_model)
      (lib:=Reference.flat_index) "a b" [[3; 1]; [10; 2]; [4; 1]]
      ["x"; "y"; "z"]%string 2 Reference.empty_world = (Ok results, w')
    ∧ searches w' = S (searches Reference.empty_world)
    ∧ len results ≤ 2
    ∧ length results = length [0; 2]
    ∧ (∀ (i : nat) idx d, [0; 2] !! i = Some idx →
         [0%Q; 1%Q] !! i = Some d →
         ∃ chunk, getitem ["x"; "y"; "z"]%string idx = Ok chunk
                  ∧ results !! i = Some (chunk, d))
    ∧ Sorted Qle (results.*2).
Proof.
  apply (retrieve_top_passages_pairs (model:=Reference.count_model)
           (lib:=Reference.flat_index) "a b" [[3; 1]; [10; 2]; [4; 1]]
           ["x"; "y"; "z"]%string 2 Reference.empty_world [[0%Q; 1%Q]]
           [[0; 2]] [0%Q; 1%Q] [0; 2]).
  - by vm_compute.
  - reflexivity.
  - reflexivity.
  - reflexivity.
  - by vm_compute.
  - repeat (apply Forall_cons; [unfold len; cbn; lia|]). apply Forall_nil.
  - repeat constructor. by vm_compute.
Defined.

(** ** Persistence *)

Section Persistence.
Context {A : Type} {codec : Pickle A}.
Implicit Types (embeddings : A) (file_path : string) (w : World).

Lemma save_embeddings_denied embeddings file_path w :
  file_path ∈ write_denied w →
  save_embeddings embeddings file_path w = (Raise OSError, w).
Proof.
  intros Hd. unfold save_embeddings, mbind, M_bind, open_wb.
  by rewrite decide_True.
Qed.

Lemma save_embeddings_written embeddings file_path w :
  file_path ∉ write_denied w →
  save_embeddings embeddings file_path w
  = (Ok tt, mkWorld (<[file_path := dumps embeddings]> (files w))
              (write_denied w) (read_denied w) (stdout w) (searches w)).
Proof.
  intros Hd. unfold save_embeddings, mbind, M_bind, open_wb, write.
  rewrite decide_False by done. cbn.
  by rewrite lookup_insert_eq, insert_insert_eq.
Qed.


Lemma load_embeddings_readable file_path w data :
  file_path ∉ read_denied w → files w !! file_path = Some data →
  load_embeddings (A:=A) file_path w = (loads data, w).
Proof.
  intros Hnd Hf. unfold load_embeddings, mbind, M_bind, open_rb, read.
  rewrite decide_False by done. rewrite Hf. cbn. by rewrite Hf.
Qed.

End Persistence.

(** C5: on a path that can be written and read, [save_embeddings] succeeds
    and [load_embeddings] then returns the matrix that was saved. *)
Theorem save_load_round_trip {A} {codec : Pickle A} (embeddings : A)
    (file_path : string) (w : World) :
  file_path ∉ write_denied w → file_path ∉ read_denied w →
  ∃ w', save_embeddings embeddings file_path w = (Ok tt, w')
        ∧ load_embeddings file_path w' = (Ok embeddings, w').
Proof.
  intros Hw Hr. eexists. split; [by apply save_embeddings_written|].
  rewrite (load_embeddings_readable _ _ (dumps embeddings));
    [by rewrite loads_dumps|done|cbn; apply lookup_insert_eq].
Qed.

(** The theorem on a two-row matrix, with the bit codec, in the empty
    world. *)
Lemma save_load_round_trip_witness :
  ∃ w', save_embeddings (codec:=Reference.bit_pickle) [[3; 1]; [10; 2]]
          "data/embeddings.pkl" Reference.empty_world = (Ok tt, w')
        ∧ load_embeddings (codec:=Reference.bit_pickle) "data/embeddings.pkl"
            w' = (Ok [[3; 1]; [10; 2]], w').
Proof.
  apply (save_load_round_trip (codec:=Reference.bit_pickle) [[3; 1]; [10; 2]]
           "data/embeddings.pkl" Reference.empty_world);
    cbn; set_solver.
Defined.



(** ** The embedder *)

Lemma from_records_str_idx records :
  from_records records !! "str_idx" = Some ((λ r, r.1.1) <$> records).
Proof. unfold from_records. by rewrite lookup_insert_eq. Qed.

Lemma from_records_chunk_id records :
  from_records records !! "chunk_id" = Some ((λ r, Int r.1.2) <$> records).
Proof.
  unfold from_records. rewrite lookup_insert_ne by done.
  by rewrite lookup_insert_eq.
Qed.

Lemma from_records_chunk records :
  from_records records !! "chunk" = Some (Str <$> records.*2).
Proof.
  unfold from_records. rewrite !lookup_insert_ne by done.
  rewrite lookup_insert_eq. by rewrite <- list_fmap_compose.
Qed.

(** On the chunk table, with [rec_num = -1], the texts of all the rows but
    the last are embedded. *)
Lemma embedd_dataset_chunk_column {model : SentenceTransformer}
    (records : list (cell * Z * string)) :
  embedd_dataset (Some (from_records records)) "chunk" (-1)
  = Ok (embed <$> take (length records - 1) (records.*2)).
Proof.
  unfold embedd_dataset, df_getitem. cbn [mbind result_bind].
  rewrite from_records_chunk. cbn. rewrite slice_to_minus_one.
  rewrite length_fmap, <- fmap_take, length_fmap. apply encode_texts.
Qed.

(** C1 fails on the code: called as [main] calls it, with [rec_num = -1], on
    the chunk table of [N] rows, [embedd_dataset] returns the embeddings of
    the first [N - 1] rows only, and that shorter matrix is what
    [save_embeddings] writes to [data/embeddings.pkl]. *)
Theorem embedd_dataset_minus_one {model : SentenceTransformer}
    {codec : Pickle (list vector)} (records : list (cell * Z * string)) :
  ∃ embeddings,
    embedd_dataset (Some (from_records records)) "chunk" (-1) = Ok embeddings
    ∧ embeddings = embed <$> take (length records - 1) (records.*2)
    ∧ length embeddings = (length records - 1)%nat
    ∧ ∀ w, "data/embeddings.pkl" ∉ write_denied w →
        files (save_embeddings embeddings "data/embeddings.pkl" w).2
          !! "data/embeddings.pkl" = Some (dumps embeddings).
Proof.
  eexists. split; [apply embedd_dataset_chunk_column|].
  split; [reflexivity|]. split.
  - rewrite length_fmap, length_take, length_fmap. lia.
  - intros w Hw. rewrite save_embeddings_written by done. cbn.
    apply lookup_insert_eq.
Qed.

(** Two chunks in, one embedding out. *)
Example embedd_dataset_two_rows {model : SentenceTransformer} :
  embedd_dataset
    (Some (from_records [(Str "ch1", 0, "alpha"); (Str "ch1", 1, "beta")]))
    "chunk" (-1)
  = Ok [embed "alpha"].
Proof. by rewrite embedd_dataset_chunk_column. Qed.

(** ** The chunker *)

Section Chunker.
Context {splitter : TextSplitter}.
Implicit Types (book_df : DataFrame) (w : World).

Lemma create_splits_run (texts : cell) size overlap w r w' :
  create_splits texts size overlap w = (r, w') → same_store w w'.
Proof.
  unfold create_splits. destruct texts as [text|n].
  - rewrite bind_run. unfold lift at 1.
    destruct (split_text size overlap text) as [parts|e].
    + cbn. intros [= _ <-]. by repeat split.
    + intros [= _ <-]. apply same_store_refl.
  - intros [= _ <-]. apply same_store_refl.
Qed.

Lemma create_splits_Ok (texts : cell) size overlap w parts w' :
  create_splits texts size overlap w = (Ok parts, w') →
  ∃ text, texts = Str text ∧ split_text size overlap text = Ok parts.
Proof.
  unfold create_splits. destruct texts as [text|n]; [|done].
  rewrite bind_run. unfold lift at 1.
  destruct (split_text size overlap text) as [parts'|e] eqn:Hs; [|done].
  cbn. intros [= <- _]. by exists text.
Qed.

Lemma create_splits_Raise text size overlap w e :
  split_text size overlap text = Raise e →
  create_splits (Str text) size overlap w = (Raise e, w).
Proof.
  intros He. unfold create_splits. rewrite bind_run. unfold lift at 1.
  by rewrite He.
Qed.

Lemma chapter_step_run book_df size overlap acc entry w r w' :
  chapter_step book_df size overlap acc entry w = (r, w') → same_store w w'.
Proof.
  unfold chapter_step. destruct entry as [i content].
  rewrite bind_run. unfold lift at 1.
  destruct (_ ≫= _) as [chapter_idx|e];
    [|intros [= _ <-]; apply same_store_refl].
  rewrite bind_run.
  destruct (create_splits content size overlap w) as [[parts|e] w1] eqn:Hs;
    apply create_splits_run in Hs; by intros [= _ <-].
Qed.

Lemma chapters_loop_run book_df size overlap entries acc w r w' :
  foldM (chapter_step book_df size overlap) acc entries w = (r, w') →
  same_store w w'.
Proof.
  revert acc w. induction entries as [|entry entries IH]; intros acc w.
  - intros [= _ <-]. apply same_store_refl.
  - cbn [foldM]. rewrite bind_run.
    destruct (chapter_step book_df size overlap acc entry w)
      as [[acc1|e] w1] eqn:Hstep; apply chapter_step_run in Hstep.
    + intros Hrest. apply IH in Hrest. by eapply same_store_trans.
    + by intros [= _ <-].
Qed.

(** The loop appends, chapter after chapter, the rows of what the splitter
    gave for the chapter, under the identifier found at the chapter's
    position. *)
Lemma chapters_loop_parts book_df size overlap (contents : list cell)
    (n : nat) acc w chunks w' :
  foldM (chapter_step book_df size overlap) acc
    (imap (λ i x, (Z.of_nat (n + i), x)) contents) w = (Ok chunks, w') →
  ∃ blocks : list (cell * list string),
    chunks = acc ++ concat ((λ b, chapter_rows b.1 b.2) <$> blocks)
    ∧ blocks.*1
      = take (length contents) (drop n (default [] (book_df !! "str_idx")))
    ∧ cut_into size overlap contents (blocks.*2).
Proof.
  revert n acc w. induction contents as [|c contents IH]; intros n acc w.
  - intros [= <- _]. exists []. rewrite app_nil_r.
    split; [done|]. split; [done|]. constructor.
  - rewrite imap_cons. cbn [foldM]. intros Hrun.
    apply bind_Ok in Hrun as (acc1 & w1 & Hstep & Hrest).
    rewrite Nat.add_0_r in Hstep. unfold chapter_step in Hstep.
    apply bind_Ok in Hstep as (chapter_idx & w2 & Hidx & Hstep).
    apply bind_Ok in Hstep as (parts & w3 & Hparts & Hstep).
    unfold lift in Hidx. injection Hidx as Hidx <-.
    injection Hstep as <- <-. unfold df_getitem in Hidx.
    destruct (book_df !! "str_idx") as [ids|] eqn:Hids; [|done].
    cbn in Hidx. apply getitem_Ok_nonneg in Hidx.
    apply create_splits_Ok in Hparts as (text & -> & Hsplit).
    rewrite (imap_ext _ (λ i x, (Z.of_nat (S n + i), x))) in Hrest
      by (intros; cbn; do 2 f_equal; lia).
    apply IH in Hrest as (blocks & -> & Hblocks & Hall).
    exists ((chapter_idx, parts) :: blocks). split; [|split].
    + cbn. by rewrite <- app_assoc.
    + cbn [default from_option id] in Hblocks |- *.
      rewrite (drop_S _ _ _ Hidx). cbn. by rewrite Hblocks.
    + cbn. constructor; [by exists text|done].
Qed.

(** The loop runs through when every chapter has an identifier and a text
    that the splitter accepts. *)
Lemma chapters_loop_total book_df size overlap ids (contents : list cell)
    (n : nat) acc w :
  book_df !! "str_idx" = Some ids →
  (n + length contents ≤ length ids)%nat →
  Forall (λ c, ∃ text parts,
            c = Str text ∧ split_text size overlap text = Ok parts) contents →
  ∃ chunks w',
    foldM (chapter_step book_df size overlap) acc
      (imap (λ i x, (Z.of_nat (n + i), x)) contents) w = (Ok chunks, w').
Proof.
  intros Hids Hlen Hall. revert n acc w Hlen.
  induction Hall as [|c contents (text & parts & -> & Hparts) _ IH];
    intros n acc w Hlen.
  - by exists acc, w.
  - cbn [length] in Hlen.
    destruct (lookup_lt_is_Some_2 ids n) as [chapter_idx Hidx]; [lia|].
    rewrite imap_cons. cbn [foldM]. rewrite Nat.add_0_r, bind_run.
    unfold chapter_step at 1. rewrite bind_run. unfold lift at 1.
    unfold df_getitem. rewrite Hids. cbn [mbind result_bind]. unfold iloc.
    rewrite (getitem_lookup _ _ _ Hidx), bind_run.
    unfold create_splits. rewrite bind_run. unfold lift at 1. rewrite Hparts.
    cbn.
    rewrite (imap_ext _ (λ i x, (Z.of_nat (S n + i), x)))
      by (intros; cbn; do 2 f_equal; lia).
    apply IH. lia.
Qed.

(** The rows the loop collects when the splitter cuts the texts into
    [partss]. *)
Lemma chapters_loop_rows book_df size overlap ids (contents : list cell)
    (partss : list (list string)) (n : nat) acc w :
  book_df !! "str_idx" = Some ids →
  (n + length contents ≤ length ids)%nat →
  cut_into size overlap contents partss →
  ∃ w',
    foldM (chapter_step book_df size overlap) acc
      (imap (λ i x, (Z.of_nat (n + i), x)) contents) w
    = (Ok (acc ++ concat (zip_with chapter_rows (drop n ids) partss)), w').
Proof.
  intros Hids Hlen Hall. revert n acc w Hlen.
  induction Hall as [|c parts contents partss (text & -> & Hparts) _ IH];
    intros n acc w Hlen.
  - exists w. cbn. rewrite zip_with_nil_r. cbn. by rewrite app_nil_r.
  - cbn [length] in Hlen.
    destruct (lookup_lt_is_Some_2 ids n) as [chapter_idx Hidx]; [lia|].
    rewrite imap_cons. cbn [foldM]. rewrite Nat.add_0_r, bind_run.
    unfold chapter_step at 1. rewrite bind_run. unfold lift at 1.
    unfold df_getitem. rewrite Hids. cbn [mbind result_bind]. unfold iloc.
    rewrite (getitem_lookup _ _ _ Hidx), bind_run.
    unfold create_splits. rewrite bind_run. unfold lift at 1. rewrite Hparts.
    cbn.
    rewrite (imap_ext _ (λ i x, (Z.of_nat (S n + i), x)))
      by (intros; cbn; do 2 f_equal; lia).
    unfold print, mbind, M_bind, mret, M_ret.
    match goal with
    | |- ∃ w', foldM _ ?a _ ?w0 = _ =>
        destruct (IH (S n) a w0) as [w' Hrest]; [lia|]
    end.
    exists w'. etransitivity; [exact Hrest|].
    rewrite (drop_S _ _ _ Hidx). cbn. by rewrite <- app_assoc.
Qed.

(** The loop of [create_book_chunks] on a well-formed book table. *)
Lemma book_loop_rows book_df size overlap ids contents partss w :
  book_df !! "str_idx" = Some ids →
  length ids = length contents →
  cut_into size overlap contents partss →
  ∃ w1,
    foldM (chapter_step book_df size overlap) [] (enumerate contents) w
    = (Ok (book_rows ids partss), w1)
    ∧ same_store w w1.
Proof.
  intros Hids Hlen Hall.
  destruct (chapters_loop_rows book_df size overlap ids contents partss 0 []
              w Hids ltac:(lia) Hall) as [w1 Hloop].
  cbn [Nat.add] in Hloop. rewrite drop_0, app_nil_l in Hloop.
  exists w1. split; [exact Hloop|].
  by apply chapters_loop_run in Hloop.
Qed.

Lemma cut_into_accepts size overlap contents :
  Forall (λ c, ∃ text parts,
            c = Str text ∧ split_text size overlap text = Ok parts) contents →
  ∃ partss, cut_into size overlap contents partss.
Proof.
  induction 1 as [|c contents (text & parts & -> & Hparts) _ [partss IH]].
  - exists []. constructor.
  - exists (parts :: partss). constructor; [by exists text|done].
Qed.

Context {csv : CsvWriter}.

(** What [create_book_chunks] does with the rows the loop has collected: the
    message and [None] when the file cannot be opened or [to_csv] fails on the
    way, the table otherwise. *)
Lemma create_book_chunks_after_loop book_df size overlap contents chunks
    w w1 :
  book_df !! "processed_content" = Some contents →
  foldM (chapter_step book_df size overlap) [] (enumerate contents) w
  = (Ok chunks, w1) →
  create_book_chunks book_df size overlap w
  = if decide ("data/chunks.csv" ∈ write_denied w1)
    then (Ok None,
          mkWorld (files w1) (write_denied w1) (read_denied w1)
            (stdout w1 ++ ["chunks CSV file could not be created."])
            (searches w1))
    else match csv_error (from_records chunks) with
         | Some _ =>
             (Ok None,
              mkWorld (<["data/chunks.csv" := csv_image (from_records chunks)]>
                         (files w1))
                (write_denied w1) (read_denied w1)
                (stdout w1 ++ ["chunks CSV file could not be created."])
                (searches w1))
         | None =>
             (Ok (Some (from_records chunks)),
              mkWorld (<["data/chunks.csv" := csv_image (from_records chunks)]>
                         (files w1))
                (write_denied w1) (read_denied w1) (stdout w1) (searches w1))
         end.
Proof.
  intros Hcontents Hloop.
  unfold create_book_chunks. rewrite bind_run. unfold lift at 1.
  unfold df_getitem. rewrite Hcontents, bind_run, Hloop.
  unfold try_except, to_csv. rewrite !bind_run. unfold open_wb.
  destruct (decide ("data/chunks.csv" ∈ write_denied w1)); [done|].
  rewrite bind_run. unfold write. cbn [files write_denied read_denied stdout
                                         searches].
  rewrite lookup_insert_eq, insert_insert_eq. cbn [default from_option id app].
  by destruct (csv_error (from_records chunks)).
Qed.

(** What [create_book_chunks] returns once the loop has collected [chunks]:
    the table when the snapshot could be written, [None] otherwise, after the
    message. *)
Lemma create_book_chunks_Ok book_df size overlap w r w' :
  create_book_chunks book_df size overlap w = (Ok r, w') →
  ∃ contents chunks w1,
    book_df !! "processed_content" = Some contents
    ∧ foldM (chapter_step book_df size overlap) [] (enumerate contents) w
      = (Ok chunks, w1)
    ∧ ((r = None
        ∧ stdout w' = stdout w1 ++ ["chunks CSV file could not be created."]
        ∧ ("data/chunks.csv" ∈ write_denied w
           ∨ is_Some (csv_error (from_records chunks))))
       ∨ (r = Some (from_records chunks)
          ∧ ("data/chunks.csv" ∉ write_denied w)
          ∧ csv_error (from_records chunks) = None)).
Proof.
  intros Hrun. pose proof Hrun as Hrun'. revert Hrun'.
  unfold create_book_chunks at 1. intros Hrun'.
  apply bind_Ok in Hrun' as (contents & w0 & Hc & Hrun').
  unfold lift, df_getitem in Hc.
  destruct (book_df !! "processed_content") as [col|] eqn:Hcol; [|done].
  injection Hc as -> <-.
  apply bind_Ok in Hrun' as (chunks & w1 & Hloop & _).
  exists contents, chunks, w1. split; [done|]. split; [done|].
  pose proof (chapters_loop_run _ _ _ _ _ _ _ _ Hloop) as (_ & Hwd & _).
  rewrite (create_book_chunks_after_loop _ _ _ _ _ _ _ Hcol Hloop) in Hrun.
  rewrite <- Hwd.
  destruct (decide ("data/chunks.csv" ∈ write_denied w1)) as [Hd|Hd].
  - injection Hrun as <- <-. left. auto.
  - destruct (csv_error (from_records chunks)) as [e|] eqn:He.
    + injection Hrun as <- <-. left. split; [done|]. split; [done|].
      right. by exists e.
    + injection Hrun as <- <-. right. auto.
Qed.

End Chunker.

(** C2 fails on the code: when [data/chunks.csv] cannot be written and the
    loop has run through, the failure is caught and reported, but what
    [create_book_chunks] hands back is [None], not the chunk table; the next
    step of the pipeline, [embedd_dataset] on that value, raises
    [TypeError]. *)
Theorem create_book_chunks_write_failure {splitter : TextSplitter}
    {csv : CsvWriter} {model : SentenceTransformer} (book_df : DataFrame)
    (size : Z) (overlap : Q) (w w' : World) (r : option DataFrame) :
  "data/chunks.csv" ∈ write_denied w →
  create_book_chunks book_df size overlap w = (Ok r, w') →
  r = None
  ∧ list.last (stdout w') = Some "chunks CSV file could not be created."
  ∧ ∀ text_field rec_num,
      embedd_dataset r text_field rec_num = Raise TypeError.
Proof.
  intros Hdenied Hrun.
  apply create_book_chunks_Ok in Hrun
    as (contents & chunks & w1 & _ & _ & [(-> & Hout & _)|(_ & Hfree & _)]);
    [|done].
  split; [done|]. split; [|done].
  rewrite Hout. apply last_snoc.
Qed.

(** The theorem on the two-chapter book, in a world where the snapshot
    cannot be written. *)
Lemma create_book_chunks_write_failure_witness :
  (create_book_chunks (splitter:=Reference.window_splitter)
     (csv:=Reference.line_csv) Reference.book 6 (3 # 10)
     (Reference.deny_write "data/chunks.csv" Reference.empty_world)).1
  = Ok None
  ∧ ((None : option DataFrame) = None
     ∧ list.last
         (stdout
            (create_book_chunks (splitter:=Reference.window_splitter)
               (csv:=Reference.line_csv) Reference.book 6 (3 # 10)
               (Reference.deny_write "data/chunks.csv"
                  Reference.empty_world)).2)
       = Some "chunks CSV file could not be created."
     ∧ ∀ text_field rec_num,
         embedd_dataset (model:=Reference.count_model) None text_field rec_num
         = Raise TypeError).
Proof.
  split; [by vm_compute|].
  apply (create_book_chunks_write_failure
           (splitter:=Reference.window_splitter) (csv:=Reference.line_csv)
           (model:=Reference.count_model) Reference.book 6 (3 # 10)
           (Reference.deny_write "data/chunks.csv" Reference.empty_world)).
  - cbn. set_solver.
  - by vm_compute.
Defined.

(** ** Parents and sequence indices *)

Lemma chapter_rows_lookup (chapter_idx : cell) (parts : list string)
    (j : nat) (c : string) :
  parts !! j = Some c →
  chapter_rows chapter_idx parts !! j = Some (chapter_idx, Z.of_nat j, c).
Proof.
  intros Hc. unfold chapter_rows.
  by rewrite list_lookup_fmap, enumerate_lookup, Hc.
Qed.

Lemma chapter_rows_pairs (chapter_idx : cell) (parts : list string) :
  (chapter_rows chapter_idx parts).*1
  = (λ j, (chapter_idx, j)) <$> seqZ 0 (len parts).
Proof.
  unfold chapter_rows, len.
  apply list_eq. intros i.
  rewrite !list_lookup_fmap, enumerate_lookup.
  destruct (parts !! i) as [c|] eqn:Hc.
  - rewrite lookup_seqZ_lt by (apply lookup_lt_Some in Hc; lia).
    reflexivity.
  - rewrite lookup_seqZ_ge by (apply lookup_ge_None in Hc; lia).
    reflexivity.
Qed.

Lemma chapter_rows_texts (chapter_idx : cell) (parts : list string) :
  (chapter_rows chapter_idx parts).*2 = parts.
Proof.
  unfold chapter_rows. apply list_eq. intros i.
  rewrite !list_lookup_fmap, enumerate_lookup.
  by destruct (parts !! i).
Qed.

Lemma chapter_rows_parents (chapter_idx : cell) (parts : list string) :
  (λ r : cell * Z * string, r.1.1) <$> chapter_rows chapter_idx parts
  = replicate (length parts) chapter_idx.
Proof.
  unfold chapter_rows. apply list_eq. intros i.
  rewrite !list_lookup_fmap, enumerate_lookup.
  destruct (parts !! i) as [c|] eqn:Hc.
  - rewrite lookup_replicate_2 by (by eapply lookup_lt_Some). done.
  - symmetry. apply lookup_replicate_None. by apply lookup_ge_None.
Qed.

Lemma chapter_rows_seqnos (chapter_idx : cell) (parts : list string) :
  (λ r : cell * Z * string, r.1.2) <$> chapter_rows chapter_idx parts
  = range (len parts).
Proof.
  unfold chapter_rows, range, len. apply list_eq. intros i.
  rewrite !list_lookup_fmap, enumerate_lookup.
  destruct (parts !! i) as [c|] eqn:Hc.
  - rewrite lookup_seqZ_lt by (apply lookup_lt_Some in Hc; lia).
    reflexivity.
  - rewrite lookup_seqZ_ge by (apply lookup_ge_None in Hc; lia).
    reflexivity.
Qed.

(** The three columns of the rows of a book. *)
Lemma book_rows_texts (ids : Series) (partss : list (list string)) :
  length ids = length partss → (book_rows ids partss).*2 = concat partss.
Proof.
  unfold book_rows. revert partss.
  induction ids as [|id ids IH]; intros [|parts partss] Hlen; try done.
  cbn. rewrite fmap_app, chapter_rows_texts, IH; [done|].
  cbn in Hlen. lia.
Qed.

Lemma book_rows_parents (ids : Series) (partss : list (list string)) :
  (λ r : cell * Z * string, r.1.1) <$> book_rows ids partss
  = concat (zip_with (λ id parts, replicate (length parts) id) ids partss).
Proof.
  unfold book_rows. revert partss.
  induction ids as [|id ids IH]; intros [|parts partss]; try done.
  cbn. by rewrite fmap_app, chapter_rows_parents, IH.
Qed.

Lemma book_rows_seqnos (ids : Series) (partss : list (list string)) :
  length ids = length partss →
  (λ r : cell * Z * string, r.1.2) <$> book_rows ids partss
  = concat ((λ parts, range (len parts)) <$> partss).
Proof.
  unfold book_rows. revert partss.
  induction ids as [|id ids IH]; intros [|parts partss] Hlen; try done.
  cbn. rewrite fmap_app, chapter_rows_seqnos, IH; [done|].
  cbn in Hlen. lia.
Qed.

Lemma book_rows_blocks (blocks : list (cell * list string)) :
  concat ((λ b, chapter_rows b.1 b.2) <$> blocks)
  = book_rows (blocks.*1) (blocks.*2).
Proof.
  unfold book_rows. induction blocks as [|b blocks IH]; [done|].
  cbn. by rewrite IH.
Qed.

Lemma book_rows_take (ids : Series) (partss : list (list string)) :
  book_rows (take (length partss) ids) partss = book_rows ids partss.
Proof.
  unfold book_rows. revert partss.
  induction ids as [|id ids IH]; intros [|parts partss]; try done.
  cbn. by rewrite IH.
Qed.

Lemma elem_of_concat {A} (x : A) (ls : list (list A)) :
  (∃ l, x ∈ l ∧ l ∈ ls) → x ∈ concat ls.
Proof.
  intros (l & Hx & Hl). induction ls as [|l' ls IH];
    [by apply elem_of_nil in Hl|].
  cbn. apply elem_of_app.
  apply elem_of_cons in Hl as [->|Hl]; [by left|right; by apply IH].
Qed.

Lemma book_rows_lookup (ids : Series) (partss : list (list string))
    (i j : nat) (id : cell) (parts : list string) (c : string) :
  ids !! i = Some id → partss !! i = Some parts → parts !! j = Some c →
  ∃ r : nat, book_rows ids partss !! r = Some (id, Z.of_nat j, c).
Proof.
  intros Hid Hparts Hc. apply list_elem_of_lookup_1. unfold book_rows.
  apply elem_of_concat. exists (chapter_rows id parts). split.
  - apply list_elem_of_lookup. exists j. by apply chapter_rows_lookup.
  - apply list_elem_of_lookup. exists i.
    by rewrite lookup_zip_with, Hid, Hparts.
Qed.

Lemma concat_rows_pairs (blocks : list (cell * list string)) :
  (concat ((λ b, chapter_rows b.1 b.2) <$> blocks)).*1 = block_pairs blocks.
Proof.
  unfold block_pairs. induction blocks as [|b blocks IH]; [done|].
  cbn. by rewrite fmap_app, chapter_rows_pairs, IH.
Qed.

Lemma block_pairs_parent (blocks : list (cell * list string)) (r : cell * Z) :
  r ∈ block_pairs blocks → r.1 ∈ blocks.*1.
Proof.
  unfold block_pairs. induction blocks as [|b blocks IH]; cbn.
  - by intros ?%elem_of_nil.
  - rewrite elem_of_app. intros [Hr|Hr].
    + apply list_elem_of_fmap in Hr as (j & -> & _). cbn. by left.
    + right. by apply IH.
Qed.

Lemma block_pairs_other_parent (blocks : list (cell * list string)) (p : cell) :
  p ∉ blocks.*1 → filter (λ r, r.1 = p) (block_pairs blocks) = [].
Proof.
  intros Hp.
  destruct (filter (λ r, r.1 = p) (block_pairs blocks)) as [|r rs] eqn:Hf;
    [done|].
  assert (r ∈ filter (λ r, r.1 = p) (block_pairs blocks)) as Hr
    by (rewrite Hf; by left).
  apply list_elem_of_filter in Hr as [<- Hr].
  by apply block_pairs_parent in Hr.
Qed.

Lemma block_filter_same (p : cell) (n : Z) :
  filter (λ r : cell * Z, r.1 = p) ((λ j, (p, j)) <$> seqZ 0 n)
  = (λ j, (p, j)) <$> seqZ 0 n.
Proof.
  induction (seqZ 0 n) as [|j js IH]; [done|].
  rewrite fmap_cons, filter_cons_True by done. by rewrite IH.
Qed.

Lemma block_filter_other (p q : cell) (n : Z) :
  q ≠ p → filter (λ r : cell * Z, r.1 = p) ((λ j, (q, j)) <$> seqZ 0 n) = [].
Proof.
  intros Hq. induction (seqZ 0 n) as [|j js IH]; [done|].
  by rewrite fmap_cons, filter_cons_False.
Qed.

Lemma block_pairs_NoDup (blocks : list (cell * list string)) :
  NoDup (blocks.*1) → NoDup (block_pairs blocks).
Proof.
  unfold block_pairs. induction blocks as [|b blocks IH]; cbn.
  - intros _. constructor.
  - intros [Hb Hrest]%list.NoDup_cons. apply list.NoDup_app. split; [|split].
    + apply NoDup_fmap_2; [|apply NoDup_seqZ]. by intros j1 j2 [= ->].
    + intros r Hr Hr'. apply list_elem_of_fmap in Hr as (j & -> & _).
      by apply block_pairs_parent in Hr'.
    + by apply IH.
Qed.

Lemma block_pairs_contiguous (blocks : list (cell * list string)) (p : cell) :
  NoDup (blocks.*1) →
  ∃ m : nat,
    (filter (λ r, r.1 = p) (block_pairs blocks)).*2 = range (Z.of_nat m).
Proof.
  unfold range. induction blocks as [|b blocks IH].
  - intros _. by exists 0%nat.
  - rewrite fmap_cons. intros [Hb Hrest]%list.NoDup_cons.
    change (block_pairs (b :: blocks))
      with (((λ j, (b.1, j)) <$> seqZ 0 (len b.2)) ++ block_pairs blocks).
    rewrite list.filter_app. destruct (decide (b.1 = p)) as [<-|Hne].
    + rewrite block_filter_same, (block_pairs_other_parent _ _ Hb), app_nil_r.
      exists (length b.2). rewrite <- list_fmap_compose. apply list_fmap_id.
    + rewrite (block_filter_other _ _ _ Hne). by apply IH.
Qed.

(** What an [Ok (Some _)] run of [create_book_chunks] has collected: the rows
    of the book, for what the splitter gave for each of its texts. *)
Lemma create_book_chunks_rows {splitter : TextSplitter} {csv : CsvWriter}
    (book_df : DataFrame) (size : Z) (overlap : Q) (w w' : World)
    (ids : Series) (chunks_df : DataFrame) :
  book_df !! "str_idx" = Some ids →
  create_book_chunks book_df size overlap w = (Ok (Some chunks_df), w') →
  ∃ (contents : Series) (partss : list (list string)),
    book_df !! "processed_content" = Some contents
    ∧ cut_into size overlap contents partss
    ∧ (length partss ≤ length ids)%nat
    ∧ chunks_df = from_records (book_rows ids partss).
Proof.
  intros Hids Hrun.
  apply create_book_chunks_Ok in Hrun
    as (contents & chunks & w1 & Hc & Hloop & [(? & _)|(Hr & _)]); [done|].
  injection Hr as ->. unfold enumerate in Hloop.
  apply (chapters_loop_parts book_df size overlap contents 0) in Hloop
    as (blocks & -> & Hblocks & Hall).
  rewrite Hids in Hblocks. cbn [default from_option id] in Hblocks.
  rewrite drop_0 in Hblocks.
  pose proof Hall as Hlen. apply Forall2_length in Hlen.
  rewrite length_fmap in Hlen.
  assert (length blocks ≤ length ids)%nat as Hle.
  { apply (f_equal length) in Hblocks.
    rewrite length_fmap, length_take in Hblocks. lia. }
  exists contents, (blocks.*2). split; [done|]. split; [done|].
  split; [by rewrite length_fmap|].
  rewrite app_nil_l, book_rows_blocks, Hblocks, Hlen.
  rewrite <- (length_fmap snd blocks). by rewrite book_rows_take.
Qed.

(** C6, as amended: for a book table whose [str_idx] values are pairwise
    distinct, the table that [create_book_chunks] returns has one row for
    every chunk the splitter gave for a chapter: the row of the [j]-th chunk
    of a chapter holds the chunk, the identifier of that chapter and the
    sequence index [j], the rows standing chapter after chapter in book
    order.  So the (identifier, index) pairs are pairwise distinct and, for
    every identifier, the indices of its chunks, in table order, are
    [0, 1, ..., m - 1]. *)
Theorem create_book_chunks_sequence {splitter : TextSplitter}
    {csv : CsvWriter} (book_df : DataFrame) (size : Z) (overlap : Q)
    (w w' : World) (ids : Series) (chunks_df : DataFrame) :
  book_df !! "str_idx" = Some ids → NoDup ids →
  create_book_chunks book_df size overlap w = (Ok (Some chunks_df), w') →
  ∃ (contents : Series) (partss : list (list string)) (parents : Series)
    (seqnos : list Z),
    book_df !! "processed_content" = Some contents
    ∧ cut_into size overlap contents partss
    ∧ chunks_df !! "chunk" = Some (Str <$> concat partss)
    ∧ chunks_df !! "str_idx" = Some parents
    ∧ chunks_df !! "chunk_id" = Some (Int <$> seqnos)
    ∧ parents
      = concat (zip_with (λ id parts, replicate (length parts) id) ids partss)
    ∧ seqnos = concat ((λ parts, range (len parts)) <$> partss)
    ∧ (∀ (i j : nat) id parts c,
         ids !! i = Some id → partss !! i = Some parts → parts !! j = Some c →
         ∃ r : nat, concat partss !! r = Some c
                    ∧ parents !! r = Some id
                    ∧ seqnos !! r = Some (Z.of_nat j))
    ∧ length parents = length seqnos
    ∧ (∀ p, p ∈ parents → p ∈ ids)
    ∧ NoDup (zip parents seqnos)
    ∧ ∀ p, ∃ m : nat,
        (filter (λ r, r.1 = p) (zip parents seqnos)).*2 = range (Z.of_nat m).
Proof.
  intros Hids Hnodup Hrun.
  destruct (create_book_chunks_rows _ _ _ _ _ _ _ Hids Hrun)
    as (contents & partss & Hc & Hall & Hle & ->).
  set (ids' := take (length partss) ids).
  assert (length ids' = length partss) as Hlen'.
  { unfold ids'. rewrite length_take. lia. }
  assert (book_rows ids partss = book_rows ids' partss) as Hrows
    by (unfold ids'; by rewrite book_rows_take).
  set (records := book_rows ids partss) in *.
  set (blocks := zip ids' partss).
  assert (blocks.*1 = ids') as Hb1 by (apply fst_zip; lia).
  assert (blocks.*2 = partss) as Hb2 by (apply snd_zip; lia).
  assert (records = concat ((λ b, chapter_rows b.1 b.2) <$> blocks)) as Hrec.
  { by rewrite book_rows_blocks, Hb1, Hb2. }
  assert (NoDup (blocks.*1)) as Hnd.
  { rewrite Hb1. eapply sublist_NoDup; [exact Hnodup|apply sublist_take]. }
  assert (zip ((λ r : cell * Z * string, r.1.1) <$> records)
              ((λ r : cell * Z * string, r.1.2) <$> records)
          = block_pairs blocks) as Hzip.
  { rewrite <- concat_rows_pairs, <- Hrec.
    transitivity (zip (records.*1).*1 (records.*1).*2); [|apply zip_fst_snd].
    by rewrite <- !list_fmap_compose. }
  exists contents, partss, ((λ r, r.1.1) <$> records),
    ((λ r, r.1.2) <$> records).
  split; [done|]. split; [done|].
  split. { rewrite from_records_chunk. fold records.
           by rewrite Hrows, book_rows_texts. }
  split; [apply from_records_str_idx|].
  split; [by rewrite from_records_chunk_id, <- list_fmap_compose|].
  split; [apply book_rows_parents|].
  split; [by rewrite Hrows, book_rows_seqnos|].
  split.
  { intros i j id parts c Hid Hparts Hcj.
    destruct (book_rows_lookup ids partss i j id parts c Hid Hparts Hcj)
      as [r Hr].
    fold records in Hr. exists r. split; [|split].
    - rewrite <- (book_rows_texts ids' partss Hlen'), <- Hrows.
      by rewrite list_lookup_fmap, Hr.
    - by rewrite list_lookup_fmap, Hr.
    - by rewrite list_lookup_fmap, Hr. }
  split; [by rewrite !length_fmap|]. rewrite Hzip.
  split; [|split].
  - intros p Hp. apply list_elem_of_fmap in Hp as (r & -> & Hr).
    assert (r.1 ∈ block_pairs blocks) as Hin.
    { rewrite <- concat_rows_pairs, <- Hrec.
      apply list_elem_of_fmap. by exists r. }
    apply block_pairs_parent in Hin. rewrite Hb1 in Hin.
    apply elem_of_take in Hin as (i & Hi & _).
    apply list_elem_of_lookup. by exists i.
  - by apply block_pairs_NoDup.
  - intros p. by apply block_pairs_contiguous.
Qed.

(** The theorem on the two-chapter book cut into windows of six
    characters. *)
Lemma create_book_chunks_sequence_witness :
  (create_book_chunks (splitter:=Reference.window_splitter)
     (csv:=Reference.line_csv) Reference.book 6 (3 # 10)
     Reference.empty_world).1 = Ok (Some Reference.book_chunks_df)
  ∧ ∃ (contents : Series) (partss : list (list string)) (parents : Series)
      (seqnos : list Z),
      Reference.book !! "processed_content" = Some contents
      ∧ cut_into (splitter:=Reference.window_splitter) 6 (3 # 10) contents
          partss
      ∧ Reference.book_chunks_df !! "chunk" = Some (Str <$> concat partss)
      ∧ Reference.book_chunks_df !! "str_idx" = Some parents
      ∧ Reference.book_chunks_df !! "chunk_id" = Some (Int <$> seqnos)
      ∧ parents
        = concat (zip_with (λ id parts, replicate (length parts) id)
                    [Str "ch1"; Str "ch2"] partss)
      ∧ seqnos = concat ((λ parts, range (len parts)) <$> partss)
      ∧ (∀ (i j : nat) id parts c,
           [Str "ch1"; Str "ch2"] !! i = Some id →
           partss !! i = Some parts → parts !! j = Some c →
           ∃ r : nat, concat partss !! r = Some c
                      ∧ parents !! r = Some id
                      ∧ seqnos !! r = Some (Z.of_nat j))
      ∧ length parents = length seqnos
      ∧ (∀ p, p ∈ parents → p ∈ [Str "ch1"; Str "ch2"])
      ∧ NoDup (zip parents seqnos)
      ∧ ∀ p, ∃ m : nat,
          (filter (λ r, r.1 = p) (zip parents seqnos)).*2
          = range (Z.of_nat m).
Proof.
  split; [by vm_compute|].
  apply (create_book_chunks_sequence (splitter:=Reference.window_splitter)
           (csv:=Reference.line_csv) Reference.book 6 (3 # 10)
           Reference.empty_world
           (create_book_chunks (splitter:=Reference.window_splitter)
              (csv:=Reference.line_csv) Reference.book 6 (3 # 10)
              Reference.empty_world).2).
  - by vm_compute.
  - apply (bool_decide_unpack _). by vm_compute.
  - by vm_compute.
Defined.

(** C6 as stated fails: on a book table whose two rows carry the same
    identifier, each a short text that stays in one chunk, both chapters start
    at sequence index 0 and the pair (ch1, 0) occurs twice in the chunk
    table. *)
Lemma create_book_chunks_repeated_parent :
  (create_book_chunks (splitter:=Reference.window_splitter)
     (csv:=Reference.line_csv) Reference.book_twice 1000 (3 # 10)
     Reference.empty_world).1
  = Ok (Some (from_records [(Str "ch1", 0, "call me ishmael");
                            (Str "ch1", 0, "loomings")]))
  ∧ from_records [(Str "ch1", 0, "call me ishmael"); (Str "ch1", 0, "loomings")]
      !! "str_idx" = Some [Str "ch1"; Str "ch1"]
  ∧ from_records [(Str "ch1", 0, "call me ishmael"); (Str "ch1", 0, "loomings")]
      !! "chunk_id" = Some [Int 0; Int 0]
  ∧ ¬ NoDup (zip [Str "ch1"; Str "ch1"] [0; 0]).
Proof.
  split; [by vm_compute|]. split; [by vm_compute|]. split; [by vm_compute|].
  intros [Hin _]%list.NoDup_cons. apply Hin. by left.
Qed.

(** * Further properties *)

(** ** Lists and the comprehension, continued *)

Lemma getitem_out_of_range {A} (l : list A) (i : Z) :
  len l ≤ i → getitem l i = Raise IndexError.
Proof.
  intros Hi. unfold getitem, len in *.
  destruct (Z.ltb_spec i 0); [lia|].
  destruct (Z.leb_spec 0 i); [|done].
  destruct (Z.ltb_spec i (Z.of_nat (length l))); [lia|done].
Qed.

Lemma getitem_error {A} (l : list A) (i : Z) (e : exn) :
  getitem l i = Raise e → e = IndexError.
Proof.
  unfold getitem. destruct (_ && _); [|congruence].
  destruct (l !! _); congruence.
Qed.

Lemma getitem_Ok_inv {A} (l : list A) (i : Z) (x : A) :
  getitem l i = Ok x →
  - len l ≤ i < len l ∧ l !! Z.to_nat (if i <? 0 then i + len l else i) = Some x.
Proof.
  unfold getitem. set (j := if i <? 0 then i + len l else i).
  destruct (Z.leb_spec 0 j); [|done]. destruct (Z.ltb_spec j (len l)); [|done].
  cbn. destruct (l !! Z.to_nat j) as [y|] eqn:Hy; [|done].
  intros [= ->]. split; [|done].
  unfold j in *. destruct (Z.ltb_spec i 0); lia.
Qed.

Lemma getitem_Ok_elem {A} (l : list A) (i : Z) (x : A) :
  getitem l i = Ok x → x ∈ l.
Proof.
  intros [_ Hx]%getitem_Ok_inv. apply list_elem_of_lookup. by eexists.
Qed.

Lemma getitem_minus_one {A} (l : list A) (x : A) :
  getitem l (-1) = Ok x → list.last l = Some x.
Proof.
  intros [Hr Hx]%getitem_Ok_inv. rewrite last_lookup.
  rewrite <- Hx. f_equal. cbn. unfold len. lia.
Qed.

Lemma mapM_result_ext {A B} (f g : A → result B) (l : list A) :
  Forall (λ x, f x = g x) l → mapM f l = mapM g l.
Proof.
  induction 1 as [|x l Hx _ IH]; [done|].
  cbn. by rewrite Hx, IH.
Qed.

Lemma mapM_result_Ok_inv {A B} (f : A → result B) (l : list A) (ys : list B) :
  mapM f l = Ok ys → Forall2 (λ x y, f x = Ok y) l ys.
Proof.
  revert ys. induction l as [|x l IH]; intros ys.
  - intros [= <-]. constructor.
  - cbn. destruct (f x) as [y|e] eqn:Hx; [|done]. cbn.
    destruct (mapM f l) as [ys'|e]; [|done]. cbn.
    intros [= <-]. constructor; [done|]. by apply IH.
Qed.

Lemma mapM_result_Raise_inv {A B} (f : A → result B) (l : list A) (e : exn) :
  mapM f l = Raise e → ∃ x, x ∈ l ∧ f x = Raise e.
Proof.
  induction l as [|x l IH]; [done|].
  cbn. destruct (f x) as [y|e'] eqn:Hx.
  - cbn. destruct (mapM f l) as [ys|e'']; [done|]. cbn.
    intros [= ->]. destruct IH as (x' & Hin & Hx'); [done|].
    exists x'. split; [by right|done].
  - cbn. intros [= ->]. exists x. split; [by left|done].
Qed.

Lemma mapM_result_first_error {A B} (f : A → result B) (l1 l2 : list A)
    (x : A) (e : exn) :
  Forall (λ y, ∃ z, f y = Ok z) l1 → f x = Raise e →
  mapM f (l1 ++ x :: l2) = Raise e.
Proof.
  intros Hall Hx. induction Hall as [|y l1 [z Hy] _ IH].
  - cbn. by rewrite Hx.
  - cbn. rewrite Hy. cbn. by rewrite IH.
Qed.

Lemma range_lookup (n : Z) (i : Z) : i ∈ range n → 0 ≤ i < n.
Proof. unfold range. rewrite elem_of_seqZ. lia. Qed.

Lemma common_comm (a g : list Z) : common a g = common g a.
Proof. unfold common. by rewrite (comm_L (∩)). Qed.

Lemma common_same_set (a a' g g' : list Z) :
  (∀ x, x ∈ a ↔ x ∈ a') → (∀ x, x ∈ g ↔ x ∈ g') →
  common a g = common a' g'.
Proof.
  intros Ha Hg. unfold common. do 2 f_equal.
  apply set_eq. intros x.
  rewrite !elem_of_intersection, !elem_of_list_to_set. by rewrite Ha, Hg.
Qed.

Lemma size_list_to_set_le (a : list Z) :
  (size (list_to_set a : gset Z) ≤ length a)%nat.
Proof.
  induction a as [|x a IH]; [by rewrite list_to_set_nil, size_empty|].
  rewrite list_to_set_cons, size_union_alt, size_singleton. cbn [length].
  assert (size (list_to_set a ∖ {[x]} : gset Z)
          ≤ size (list_to_set a : gset Z))%nat as Hle.
  { apply subseteq_size, subseteq_difference_l. done. }
  lia.
Qed.

Lemma common_bounds (a g : list Z) : 0 ≤ common a g ≤ len a.
Proof.
  unfold common, len. split; [lia|].
  assert (size ((list_to_set a : gset Z) ∩ list_to_set g)
          ≤ size (list_to_set a : gset Z))%nat as Hle.
  { apply subseteq_size, intersection_subseteq_l. }
  pose proof (size_list_to_set_le a). lia.
Qed.

Lemma compute_recall_at_k_terms (nn_gt ann : list (list Z)) (k : Z) :
  compute_recall_at_k nn_gt ann k
  = (terms ← mapM (recall_term nn_gt ann k) (range (len ann));
     mean ← truediv (Py.sum terms) (inject_Z (len ann));
     mret (Py.round mean 3)).
Proof. reflexivity. Qed.

Lemma range_in_list {A} (l : list A) (i : Z) :
  i ∈ range (len l) → ∃ x, l !! Z.to_nat i = Some x ∧ getitem l i = Ok x.
Proof.
  intros Hi%range_lookup. unfold len in Hi.
  destruct (lookup_lt_is_Some_2 l (Z.to_nat i)) as [x Hx]; [lia|].
  exists x. split; [done|].
  rewrite <- (Z2Nat.id i) by lia. by apply getitem_lookup.
Qed.

(** ** The evaluator, continued *)

(** X1: for two batches with the same number of rows, [compute_recall_at_k]
    gives the same outcome, value or error, when ground truth and approximate
    results are exchanged. *)
Theorem compute_recall_at_k_symmetric (nn_gt ann : list (list Z)) (k : Z) :
  length nn_gt = length ann →
  compute_recall_at_k nn_gt ann k = compute_recall_at_k ann nn_gt k.
Proof.
  intros Hlen. rewrite !compute_recall_at_k_terms.
  assert (len nn_gt = len ann) as Hl by (unfold len; lia). rewrite Hl.
  rewrite (mapM_result_ext (recall_term nn_gt ann k) (recall_term ann nn_gt k));
    [done|].
  apply list.Forall_forall. intros i Hi.
  destruct (range_in_list ann i Hi) as (a & _ & Ha).
  rewrite <- Hl in Hi. destruct (range_in_list nn_gt i Hi) as (g & _ & Hg).
  unfold recall_term. rewrite Ha, Hg. cbn. by rewrite common_comm.
Qed.

Lemma compute_recall_at_k_symmetric_witness :
  compute_recall_at_k [[0; 1; 2]; [7; 8; 9]] [[0; 1; 5]; [4; 3; 6]] 3
  = compute_recall_at_k [[0; 1; 5]; [4; 3; 6]] [[0; 1; 2]; [7; 8; 9]] 3.
Proof. by apply compute_recall_at_k_symmetric. Defined.

(** X2: [compute_recall_at_k] reads every row as a set: replacing rows of
    either batch by rows with the same elements (in another order, or with
    repetitions) changes nothing in the outcome. *)
Theorem compute_recall_at_k_set_semantics
    (nn_gt nn_gt' ann ann' : list (list Z)) (k : Z) :
  Forall2 (λ a a', ∀ x, x ∈ a ↔ x ∈ a') ann ann' →
  Forall2 (λ g g', ∀ x, x ∈ g ↔ x ∈ g') nn_gt nn_gt' →
  compute_recall_at_k nn_gt ann k = compute_recall_at_k nn_gt' ann' k.
Proof.
  intros Hann Hgt. rewrite !compute_recall_at_k_terms.
  pose proof Hann as Hla. apply Forall2_length in Hla.
  pose proof Hgt as Hlg. apply Forall2_length in Hlg.
  assert (len ann' = len ann) as Hl by (unfold len; lia).
  rewrite Hl.
  rewrite (mapM_result_ext (recall_term nn_gt ann k)
             (recall_term nn_gt' ann' k)); [done|].
  apply list.Forall_forall. intros i Hi.
  destruct (range_in_list ann i Hi) as (a & Hia & Ha).
  destruct (Forall2_lookup_l _ _ _ _ _ Hann Hia) as (a' & Hia' & Haa').
  pose proof (range_lookup _ _ Hi) as Hr.
  assert (getitem ann' i = Ok a') as Ha'.
  { rewrite <- (Z2Nat.id i) by lia. by apply getitem_lookup. }
  unfold recall_term. rewrite Ha, Ha'. cbn.
  destruct (nn_gt !! Z.to_nat i) as [g|] eqn:Hig.
  - destruct (Forall2_lookup_l _ _ _ _ _ Hgt Hig) as (g' & Hig' & Hgg').
    rewrite <- (Z2Nat.id i) by lia.
    rewrite (getitem_lookup _ _ _ Hig), (getitem_lookup _ _ _ Hig'). cbn.
    by rewrite (common_same_set a a' g g').
  - apply lookup_ge_None in Hig.
    rewrite !getitem_out_of_range; [done| |]; unfold len; lia.
Qed.

Lemma compute_recall_at_k_set_semantics_witness :
  compute_recall_at_k [[2; 1; 0]] [[5; 1; 1; 0]] 3
  = compute_recall_at_k [[0; 1; 2; 2]] [[0; 1; 5]] 3.
Proof.
  apply compute_recall_at_k_set_semantics;
    (constructor; [|constructor]); intros x;
    rewrite !elem_of_cons, !elem_of_nil; tauto.
Defined.

(** X3: when the ground truth has fewer rows than the approximate batch and
    [k] is not 0, [compute_recall_at_k] raises [IndexError]. *)
Theorem compute_recall_at_k_short_batch (nn_gt ann : list (list Z)) (k : Z) :
  (length nn_gt < length ann)%nat → k ≠ 0 →
  compute_recall_at_k nn_gt ann k = Raise IndexError.
Proof.
  intros Hlen Hk. rewrite compute_recall_at_k_terms.
  unfold range, len.
  replace (Z.of_nat (length ann))
    with (Z.of_nat (length nn_gt)
          + Z.succ (Z.of_nat (length ann) - Z.of_nat (length nn_gt) - 1))
    by lia.
  rewrite seqZ_app by lia. rewrite (seqZ_cons (0 + _)) by lia.
  rewrite (mapM_result_first_error _ _ _ _ IndexError); [done| |].
  - apply list.Forall_forall. intros i Hi.
    assert (i ∈ range (len nn_gt)) as Hig by done.
    destruct (range_in_list nn_gt i Hig) as (g & _ & Hg).
    assert (i ∈ range (len ann)) as Hia.
    { unfold range, len in *. rewrite elem_of_seqZ in *. lia. }
    destruct (range_in_list ann i Hia) as (a & _ & Ha).
    unfold recall_term. rewrite Ha, Hg. cbn.
    rewrite truediv_nonzero by done. by eexists.
  - assert (0 + Z.of_nat (length nn_gt) ∈ range (len ann)) as Hia.
    { unfold range, len. rewrite elem_of_seqZ. lia. }
    destruct (range_in_list ann _ Hia) as (a & _ & Ha).
    unfold recall_term. rewrite Ha. cbn.
    rewrite getitem_out_of_range; [done|]. unfold len. lia.
Qed.

Lemma compute_recall_at_k_short_batch_witness :
  compute_recall_at_k [[0; 1]] [[0; 1]; [2; 3]] 2 = Raise IndexError.
Proof. apply compute_recall_at_k_short_batch; [cbn; lia|done]. Defined.

(** X4: rows of the ground truth beyond the length of the approximate batch
    are never read: appending rows to a ground truth as long as [ann] changes
    nothing in the outcome. *)
Theorem compute_recall_at_k_extra_rows (nn_gt extra ann : list (list Z))
    (k : Z) :
  length nn_gt = length ann →
  compute_recall_at_k (nn_gt ++ extra) ann k = compute_recall_at_k nn_gt ann k.
Proof.
  intros Hlen. rewrite !compute_recall_at_k_terms.
  rewrite (mapM_result_ext (recall_term (nn_gt ++ extra) ann k)
             (recall_term nn_gt ann k)); [done|].
  apply list.Forall_forall. intros i Hi.
  destruct (range_in_list ann i Hi) as (a & _ & Ha).
  pose proof (range_lookup _ _ Hi) as Hr. unfold len in Hr.
  destruct (lookup_lt_is_Some_2 nn_gt (Z.to_nat i)) as [g Hg]; [lia|].
  assert ((nn_gt ++ extra) !! Z.to_nat i = Some g) as Hg'
    by (rewrite lookup_app_l; [done|lia]).
  unfold recall_term. rewrite Ha. cbn.
  rewrite <- (Z2Nat.id i) by lia.
  by rewrite (getitem_lookup _ _ _ Hg), (getitem_lookup _ _ _ Hg').
Qed.

Lemma compute_recall_at_k_extra_rows_witness :
  compute_recall_at_k ([[0; 1]] ++ [[8; 9]; [4]]) [[0; 5]] 2
  = compute_recall_at_k [[0; 1]] [[0; 5]] 2.
Proof. by apply compute_recall_at_k_extra_rows. Defined.

Lemma foldr_sum_bounds (l : list Q) :
  Forall (λ q, 0 <= q <= 1)%Q l →
  (0 <= foldr Qplus 0 l <= inject_Z (len l))%Q.
Proof.
  unfold len. induction 1 as [|q l [Hq0 Hq1] _ [IH0 IH1]].
  - cbn. split; apply Qle_refl.
  - cbn [foldr length]. rewrite Nat2Z.inj_succ. unfold Z.succ.
    rewrite inject_Z_plus. split.
    + exact (Qplus_le_compat 0 q 0 _ Hq0 IH0).
    + apply Qle_trans with (1 + inject_Z (Z.of_nat (length l)))%Q;
        [by apply Qplus_le_compat|].
      rewrite Qplus_comm. apply Qle_refl.
Qed.

Lemma hit_ratio_bounds (k : Z) (a g : list Z) :
  0 < k → len a ≤ k → (0 <= RecallSpec.hit_ratio k a g <= 1)%Q.
Proof.
  intros Hk Ha. unfold RecallSpec.hit_ratio.
  pose proof (common_bounds a g) as [Hc0 Hc1].
  assert (0 < inject_Z k)%Q as Hkq by (unfold Qlt; cbn; lia).
  split.
  - apply Qle_shift_div_l; [done|]. rewrite Qmult_0_l.
    unfold Qle. cbn. lia.
  - apply Qle_shift_div_r; [done|]. rewrite Qmult_1_l.
    unfold Qle. cbn. lia.
Qed.

Lemma round_half_even_bounds (y : Q) (n : Z) :
  (0 <= y <= inject_Z n)%Q → 0 ≤ round_half_even y ≤ n.
Proof.
  intros [H0 Hn]. unfold round_half_even.
  assert (0 ≤ Qfloor y) as Hf0.
  { change 0 with (Qfloor 0). by apply Qfloor_resp_le. }
  assert (Qfloor y ≤ n) as Hfn.
  { rewrite <- (Qfloor_Z n). by apply Qfloor_resp_le. }
  destruct (Z.eq_dec (Qfloor y) n) as [Heq|Hne].
  - assert ((y - inject_Z (Qfloor y) ?= 1 # 2)%Q = Lt) as ->; [|lia].
    apply Qlt_alt. rewrite Heq.
    apply Qle_lt_trans with 0%Q; [|reflexivity].
    apply (proj1 (Qplus_le_l _ _ (inject_Z n))).
    assert (y - inject_Z n + inject_Z n == y)%Q as -> by ring.
    by rewrite Qplus_0_l.
  - destruct (_ ?= _)%Q; [destruct (Z.even _)|..]; lia.
Qed.

Lemma round_unit_bounds (x : Q) : (0 <= x <= 1)%Q → (0 <= Py.round x 3 <= 1)%Q.
Proof.
  intros [H0 H1]. unfold Py.round.
  change (inject_Z (10 ^ 3)) with (inject_Z 1000).
  destruct (round_half_even_bounds (x * inject_Z 1000) 1000) as [Hr0 Hr1].
  { split.
    - apply Qmult_le_0_compat; [done|]. by unfold Qle.
    - rewrite <- (Qmult_1_l (inject_Z 1000)) at 2.
      apply Qmult_le_compat_r; [done|]. by unfold Qle. }
  set (r := round_half_even (x * inject_Z 1000)) in *.
  split.
  - apply Qle_shift_div_l; [reflexivity|]. rewrite Qmult_0_l.
    unfold Qle. cbn. lia.
  - apply Qle_shift_div_r; [reflexivity|]. rewrite Qmult_1_l.
    unfold Qle. cbn. lia.
Qed.

(** X5: for a non-empty batch, a ground truth with as many rows and [k > 0],
    when no approximate row has more than [k] entries the recall returned
    lies between 0 and 1. *)
Theorem compute_recall_at_k_unit_interval (nn_gt ann : list (list Z))
    (k : Z) :
  ann ≠ [] → length nn_gt = length ann → 0 < k →
  Forall (λ a, len a ≤ k) ann →
  ∃ recall, compute_recall_at_k nn_gt ann k = Ok recall
            ∧ (0 <= recall <= 1)%Q.
Proof.
  intros Hne Hlen Hk Hrows.
  rewrite compute_recall_at_k_unfold by (done || lia).
  eexists. split; [reflexivity|]. apply round_unit_bounds.
  set (terms := zip_with (RecallSpec.hit_ratio k) ann nn_gt).
  assert (Forall (λ q, 0 <= q <= 1)%Q terms) as Hterms.
  { apply list.Forall_forall. intros q Hq.
    apply list_elem_of_lookup in Hq as [i Hq].
    apply lookup_zip_with_Some in Hq as (a & g & -> & Ha & Hg).
    apply hit_ratio_bounds; [done|].
    eapply (proj1 (list.Forall_forall _ _) Hrows).
    apply list_elem_of_lookup. by exists i. }
  assert (len terms = len ann) as Hl.
  { unfold terms, len. rewrite length_zip_with. lia. }
  destruct (foldr_sum_bounds terms Hterms) as [Hs0 Hs1].
  rewrite Hl in Hs1.
  assert (0 < inject_Z (len ann))%Q as Hn.
  { unfold Qlt, len. cbn. destruct ann; [done|]. cbn [length]. lia. }
  rewrite sum_foldr. split.
  - apply Qle_shift_div_l; [done|]. by rewrite Qmult_0_l.
  - apply Qle_shift_div_r; [done|]. by rewrite Qmult_1_l.
Qed.

Lemma compute_recall_at_k_unit_interval_witness :
  ∃ recall,
    compute_recall_at_k [[0; 1; 2]; [7; 8; 9]] [[0; 1; 1]; [4; 9]] 3
    = Ok recall
    ∧ (0 <= recall <= 1)%Q.
Proof.
  apply compute_recall_at_k_unit_interval; [done|done|lia|].
  repeat (apply Forall_cons; [unfold len; cbn; lia|]). apply Forall_nil.
Defined.

(** ** The embedder, continued *)

Lemma embedd_dataset_text_column {model : SentenceTransformer}
    (df : DataFrame) (text_field : string) (texts : list string)
    (rec_num : Z) :
  df !! text_field = Some (Str <$> texts) →
  embedd_dataset (Some df) text_field rec_num
  = Ok (embed <$> take (Z.to_nat (kept_rows (len texts) rec_num)) texts).
Proof.
  intros Hcol. unfold embedd_dataset, df_getitem. cbn [mbind result_bind].
  rewrite Hcol. cbn. unfold slice_to, kept_rows.
  replace (len (Str <$> texts)) with (len texts)
    by (unfold len; by rewrite length_fmap).
  rewrite (Z.add_comm rec_num), <- fmap_take. apply encode_texts.
Qed.

(** X6: on a table whose column [text_field] holds [N] texts,
    [embedd_dataset] returns the embeddings, in order, of the first [n] texts,
    where [n] is [min(rec_num, N)] for a [rec_num] that is not negative and
    [max(N + rec_num, 0)] for a negative one. *)
Theorem embedd_dataset_prefix {model : SentenceTransformer} (df : DataFrame)
    (text_field : string) (texts : list string) (rec_num : Z) :
  df !! text_field = Some (Str <$> texts) →
  ∃ n : nat,
    embedd_dataset (Some df) text_field rec_num = Ok (embed <$> take n texts)
    ∧ Z.of_nat n = (if rec_num <? 0 then Z.max (len texts + rec_num) 0
                    else Z.min rec_num (len texts)).
Proof.
  intros Hcol.
  exists (Z.to_nat (kept_rows (len texts) rec_num)).
  split; [by apply embedd_dataset_text_column|].
  unfold kept_rows, len. destruct (rec_num <? 0) eqn:E; [lia|].
  apply Z.ltb_ge in E. lia.
Qed.

Lemma embedd_dataset_prefix_witness :
  ∃ n : nat,
    embedd_dataset (model:=Reference.count_model)
      (Some Reference.book_chunks_df) "chunk" (-2)
    = Ok (Reference.count_embed
            <$> take n ["call m"; "e ishm"; "ael"; "loomin"; "gs"])
    ∧ Z.of_nat n
      = (if -2 <? 0
         then Z.max (len ["call m"; "e ishm"; "ael"; "loomin"; "gs"] + -2) 0
         else Z.min (-2) (len ["call m"; "e ishm"; "ael"; "loomin"; "gs"])).
Proof.
  apply (embedd_dataset_prefix (model:=Reference.count_model)
           Reference.book_chunks_df "chunk"
           ["call m"; "e ishm"; "ael"; "loomin"; "gs"] (-2)).
  by vm_compute.
Defined.

(** X7: on a table with at least one text, [embedd_dataset] returns as many
    embeddings as there are rows exactly when [rec_num] is at least the number
    of rows; no negative [rec_num] selects every row. *)
Theorem embedd_dataset_all_rows {model : SentenceTransformer}
    (df : DataFrame) (text_field : string) (texts : list string)
    (rec_num : Z) (embeddings : list vector) :
  df !! text_field = Some (Str <$> texts) → texts ≠ [] →
  embedd_dataset (Some df) text_field rec_num = Ok embeddings →
  length embeddings = length texts ↔ len texts ≤ rec_num.
Proof.
  intros Hcol Hne. rewrite (embedd_dataset_text_column _ _ _ _ Hcol).
  intros [= <-]. rewrite length_fmap, length_take.
  assert (0 < len texts) as Hpos
    by (unfold len; destruct texts; [done|cbn [length]; lia]).
  unfold kept_rows, len in *. destruct (Z.ltb_spec rec_num 0); lia.
Qed.

Lemma embedd_dataset_all_rows_witness :
  length (Reference.count_embed <$> ["call m"; "e ishm"; "ael"; "loomin"; "gs"])
  = length ["call m"; "e ishm"; "ael"; "loomin"; "gs"]
  ↔ len ["call m"; "e ishm"; "ael"; "loomin"; "gs"] ≤ 5.
Proof.
  apply (embedd_dataset_all_rows (model:=Reference.count_model)
           Reference.book_chunks_df "chunk"
           ["call m"; "e ishm"; "ael"; "loomin"; "gs"] 5);
    [by vm_compute|done|by vm_compute].
Defined.

(** X8: with the default [text_field], ["content"], [embedd_dataset] raises
    [KeyError] on every table built by [create_book_chunks], whose columns are
    [str_idx], [chunk_id] and [chunk]. *)
Theorem embedd_dataset_default_field {model : SentenceTransformer}
    (records : list (cell * Z * string)) (rec_num : Z) :
  embedd_dataset (Some (from_records records)) "content" rec_num
  = Raise KeyError.
Proof.
  unfold embedd_dataset, df_getitem, from_records. cbn [mbind result_bind].
  by rewrite !lookup_insert_ne, lookup_empty by done.
Qed.

(** ** The retriever, continued *)

Section RetrievalMore.
Context {model : SentenceTransformer} {lib : Index vector} {C : Type}.
Implicit Types (query : string) (ix : index) (chunks : list C) (w : World).

Lemma passage_error chunks distances entry (e : exn) :
  passage chunks distances entry = Raise e → e = IndexError.
Proof.
  unfold passage. destruct entry as [i idx].
  destruct (getitem chunks idx) as [c|e1] eqn:H1; cbn;
    [|intros [= <-]; by eapply getitem_error].
  destruct (getitem distances 0) as [drow|e2] eqn:H2; cbn;
    [|intros [= <-]; by eapply getitem_error].
  destruct (getitem drow i) as [d|e3] eqn:H3; cbn; [done|].
  intros [= <-]. by eapply getitem_error.
Qed.

Lemma passage_Ok chunks distances (i idx : Z) (chunk : C) (d : Q) :
  passage chunks distances (i, idx) = Ok (chunk, d) →
  getitem chunks idx = Ok chunk
  ∧ ∃ drow, getitem distances 0 = Ok drow ∧ getitem drow i = Ok d.
Proof.
  unfold passage.
  destruct (getitem chunks idx) as [c|e1]; cbn; [|done].
  destruct (getitem distances 0) as [drow|e2]; cbn; [|done].
  destruct (getitem drow i) as [d'|e3] eqn:H3; cbn; [|done].
  intros [= <- <-]. split; [done|]. by exists drow.
Qed.

(** What a run of [retrieve_top_passages] is made of. *)
Lemma retrieve_top_passages_run query ix chunks top_n w :
  retrieve_top_passages query ix chunks top_n w
  = (match search ix [embed query] top_n with
     | Ok (distances, indices) =>
         row ← getitem indices 0;
         mapM (passage chunks distances) (enumerate row)
     | Raise e => Raise e
     end,
     mkWorld (files w) (write_denied w) (read_denied w) (stdout w)
       (S (searches w))).
Proof.
  unfold retrieve_top_passages, mbind at 1 2, M_bind, lift at 1.
  rewrite (encode_texts [query]). cbn [fmap list_fmap].
  unfold index_search.
  destruct (search ix [embed query] top_n) as [[distances indices]|e];
    [|done].
  unfold lift. by destruct (getitem indices 0).
Qed.

End RetrievalMore.

(** X9: whatever its outcome, [retrieve_top_passages] issues exactly one
    index search and leaves the files and the console untouched. *)
Theorem retrieve_top_passages_one_search {model : SentenceTransformer}
    {lib : Index vector} {C : Type} (query : string) (ix : index)
    (chunks : list C) (top_n : Z) (w : World) :
  (retrieve_top_passages query ix chunks top_n w).2
  = mkWorld (files w) (write_denied w) (read_denied w) (stdout w)
      (S (searches w)).
Proof.
  unfold retrieve_top_passages, mbind at 1 2, M_bind, lift at 1.
  rewrite (encode_texts [query]). cbn [fmap list_fmap].
  unfold index_search.
  destruct (search ix [embed query] top_n) as [[distances indices]|e];
    [|done].
  unfold lift. by destruct (getitem indices 0).
Qed.

(** X10: when [retrieve_top_passages] returns, it returns one pair for every
    entry of [indices[0]]; the chunk of every pair is an element of [chunks]
    and its distance an element of [distances[0]]. *)
Theorem retrieve_top_passages_from_chunks {model : SentenceTransformer}
    {lib : Index vector} {C : Type} (query : string) (ix : index)
    (chunks : list C) (top_n : Z) (w w' : World) (results : list (C * Q)) :
  retrieve_top_passages query ix chunks top_n w = (Ok results, w') →
  ∃ distances indices irow,
    search ix [embed query] top_n = Ok (distances, indices)
    ∧ getitem indices 0 = Ok irow
    ∧ length results = length irow
    ∧ Forall (λ r, r.1 ∈ chunks
                   ∧ ∃ drow, getitem distances 0 = Ok drow ∧ r.2 ∈ drow)
        results.
Proof.
  rewrite retrieve_top_passages_run. intros [= Hrun _].
  destruct (search ix [embed query] top_n) as [[distances indices]|e];
    [|done].
  destruct (getitem indices 0) as [irow|e] eqn:Hirow; [|done].
  cbn in Hrun. apply mapM_result_Ok_inv in Hrun.
  pose proof Hrun as Hlen. apply Forall2_length in Hlen.
  rewrite enumerate_length in Hlen.
  exists distances, indices, irow.
  split; [done|]. split; [done|]. split; [done|].
  apply list.Forall_forall. intros [chunk d] Hr.
  apply list_elem_of_lookup in Hr as [n Hr].
  destruct (Forall2_lookup_r _ _ _ _ _ Hrun Hr) as ([i idx] & _ & Hp).
  apply passage_Ok in Hp as (Hc & drow & Hd & Hi).
  split; [by eapply getitem_Ok_elem|].
  exists drow. split; [done|]. by eapply getitem_Ok_elem.
Qed.

Lemma retrieve_top_passages_from_chunks_witness :
  ∃ distances indices irow,
    search (Index:=Reference.flat_index) [[3; 1]; [10; 2]; [4; 1]]
      [Reference.count_embed "a b"] 2 = Ok (distances, indices)
    ∧ getitem indices 0 = Ok irow
    ∧ length [("x", 0%Q); ("z", 1%Q)]%string = length irow
    ∧ Forall (λ r, r.1 ∈ ["x"; "y"; "z"]%string
                   ∧ ∃ drow, getitem distances 0 = Ok drow ∧ r.2 ∈ drow)
        [("x", 0%Q); ("z", 1%Q)]%string.
Proof.
  apply (retrieve_top_passages_from_chunks (model:=Reference.count_model)
           (lib:=Reference.flat_index) "a b" [[3; 1]; [10; 2]; [4; 1]]
           ["x"; "y"; "z"]%string 2 Reference.empty_world
           (retrieve_top_passages (model:=Reference.count_model)
              (lib:=Reference.flat_index) "a b" [[3; 1]; [10; 2]; [4; 1]]
              ["x"; "y"; "z"]%string 2 Reference.empty_world).2).
  by vm_compute.
Defined.

(** X11: when the index row holds a position outside the chunk collection
    (at or beyond its length, or below minus its length),
    [retrieve_top_passages] raises [IndexError] and returns no pair at
    all. *)
Theorem retrieve_top_passages_stray_index {model : SentenceTransformer}
    {lib : Index vector} {C : Type} (query : string) (ix : index)
    (chunks : list C) (top_n : Z) (w : World) (distances : list (list Q))
    (indices : list (list Z)) (irow : list Z) :
  search ix [embed query] top_n = Ok (distances, indices) →
  getitem indices 0 = Ok irow →
  Exists (λ idx, idx < - len chunks ∨ len chunks ≤ idx) irow →
  (retrieve_top_passages query ix chunks top_n w).1 = Raise IndexError.
Proof.
  intros Hs Hirow Hstray. rewrite retrieve_top_passages_run, Hs, Hirow. cbn.
  destruct (mapM _ _) as [results|e] eqn:Hrun.
  - exfalso. apply mapM_result_Ok_inv in Hrun.
    apply list.Exists_exists in Hstray as (idx & Hin & Hout).
    apply list_elem_of_lookup in Hin as [n Hn].
    assert (enumerate irow !! n = Some (Z.of_nat n, idx)) as He
      by (by rewrite enumerate_lookup, Hn).
    destruct (Forall2_lookup_l _ _ _ _ _ Hrun He) as ([chunk d] & _ & Hp).
    apply passage_Ok in Hp as [Hc _].
    apply getitem_Ok_inv in Hc as [Hr _]. lia.
  - apply mapM_result_Raise_inv in Hrun as (entry & _ & Hp).
    by apply passage_error in Hp as ->.
Qed.

Lemma retrieve_top_passages_stray_index_witness :
  (retrieve_top_passages (model:=Reference.count_model)
     (lib:=Reference.flat_index) "a b" [[3; 1]; [10; 2]; [4; 1]]
     ["x"; "y"]%string 2 Reference.empty_world).1 = Raise IndexError.
Proof.
  apply (retrieve_top_passages_stray_index (model:=Reference.count_model)
           (lib:=Reference.flat_index) "a b" [[3; 1]; [10; 2]; [4; 1]]
           ["x"; "y"]%string 2 Reference.empty_world [[0%Q; 1%Q]] [[0; 2]]
           [0; 2]).
  - by vm_compute.
  - reflexivity.
  - apply Exists_cons_tl, Exists_cons_hd. right. by vm_compute.
Defined.

(** X12: when the index answers with a distance for every index, every index
    being a position of a non-empty chunk collection or the padding value
    [-1], [retrieve_top_passages] returns: an entry [-1] does not fail, and
    the pair at its place carries the last chunk of the collection with the
    distance found at that place. *)
Theorem retrieve_top_passages_padding {model : SentenceTransformer}
    {lib : Index vector} {C : Type} (query : string) (ix : index)
    (chunks : list C) (top_n : Z) (w : World) (distances : list (list Q))
    (indices : list (list Z)) (drow : list Q) (irow : list Z) :
  search ix [embed query] top_n = Ok (distances, indices) →
  getitem distances 0 = Ok drow →
  getitem indices 0 = Ok irow →
  length drow = length irow →
  chunks ≠ [] →
  Forall (λ idx, -1 ≤ idx < len chunks) irow →
  ∃ results last_chunk,
    (retrieve_top_passages query ix chunks top_n w).1 = Ok results
    ∧ length results = length irow
    ∧ list.last chunks = Some last_chunk
    ∧ ∀ (i : nat) d, irow !! i = Some (-1) → drow !! i = Some d →
        results !! i = Some (last_chunk, d).
Proof.
  intros Hs Hdrow Hirow Hlen Hne Hvalid.
  assert (1 ≤ len chunks) as Hpos.
  { unfold len. destruct chunks; [done|]. cbn [length]. lia. }
  destruct (getitem_in_range chunks (-1)) as [last_chunk Hlast]; [lia|].
  rewrite retrieve_top_passages_run, Hs, Hirow. cbn.
  destruct (mapM_result_total (passage chunks distances) (enumerate irow))
    as (results & Hrun & Hall).
  { apply list.Forall_forall. intros [i idx] Hin.
    apply list_elem_of_lookup in Hin as [n Hn].
    rewrite enumerate_lookup in Hn.
    destruct (irow !! n) as [idx'|] eqn:Hidx; [|done].
    cbn in Hn. injection Hn as <- <-.
    assert (-1 ≤ idx' < len chunks) as Hrange.
    { eapply (proj1 (list.Forall_forall _ _) Hvalid).
      apply list_elem_of_lookup. by exists n. }
    destruct (getitem_in_range chunks idx') as [chunk Hchunk]; [lia|].
    destruct (lookup_lt_is_Some_2 drow n) as [d Hd].
    { rewrite Hlen. by eapply lookup_lt_Some. }
    exists (chunk, d). cbn. rewrite Hchunk. cbn. rewrite Hdrow. cbn.
    by rewrite (getitem_lookup _ _ _ Hd). }
  pose proof Hall as Hrlen. apply Forall2_length in Hrlen.
  rewrite enumerate_length in Hrlen.
  exists results, last_chunk. split; [done|]. split; [done|].
  split; [by apply getitem_minus_one|].
  intros i d Hi Hd.
  assert (enumerate irow !! i = Some (Z.of_nat i, -1)) as He
    by (by rewrite enumerate_lookup, Hi).
  destruct (Forall2_lookup_l _ _ _ _ _ Hall He) as ([chunk d'] & Hr & Hp).
  apply passage_Ok in Hp as (Hc & drow' & Hdrow' & Hd').
  assert (drow' = drow) as -> by congruence.
  apply getitem_Ok_nonneg in Hd'. rewrite Hr. do 2 f_equal; congruence.
Qed.

(** The theorem on the padded index over two stored vectors, asked for
    three neighbours: the third entry is the padding. *)
Lemma retrieve_top_passages_padding_witness :
  ∃ results last_chunk,
    (retrieve_top_passages (model:=Reference.count_model)
       (lib:=Reference.padded_index) "a b" [[3; 1]; [10; 2]]
       ["x"; "y"]%string 3 Reference.empty_world).1 = Ok results
    ∧ length results = length [0; 1; -1]
    ∧ list.last ["x"; "y"]%string = Some last_chunk
    ∧ ∀ (i : nat) d, [0; 1; -1] !! i = Some (-1) →
        [0%Q; 50%Q; 18446744073709551616%Q] !! i = Some d →
        results !! i = Some (last_chunk, d).
Proof.
  apply (retrieve_top_passages_padding (model:=Reference.count_model)
           (lib:=Reference.padded_index) "a b" [[3; 1]; [10; 2]]
           ["x"; "y"]%string 3 Reference.empty_world
           [[0%Q; 50%Q; 18446744073709551616%Q]] [[0; 1; -1]]
           [0%Q; 50%Q; 18446744073709551616%Q] [0; 1; -1]).
  - by vm_compute.
  - reflexivity.
  - reflexivity.
  - reflexivity.
  - done.
  - repeat (apply Forall_cons; [unfold len; cbn; lia|]). apply Forall_nil.
Defined.

(** ** The chunker, continued *)

Lemma foldM_app {A B} (f : B → A → M B) (l1 l2 : list A) (acc : B)
    (w : World) :
  foldM f acc (l1 ++ l2) w
  = match foldM f acc l1 w with
    | (Ok acc1, w1) => foldM f acc1 l2 w1
    | (Raise e, w1) => (Raise e, w1)
    end.
Proof.
  revert acc w. induction l1 as [|x l1 IH]; intros acc w; [done|].
  cbn [app foldM]. rewrite !bind_run.
  destruct (f acc x w) as [[acc1|e] w1]; [apply IH|done].
Qed.

Section ChunkerMore.
Context {splitter : TextSplitter}.
Implicit Types (book_df : DataFrame) (w : World).

Context {csv : CsvWriter}.

(** X14: the table that [create_book_chunks] returns holds, in its [chunk]
    column, the chunks the splitter gave for the chapters, chapter after
    chapter in book order, and in its [str_idx] column the identifier of each
    chapter repeated once per chunk of that chapter. *)
Theorem create_book_chunks_content book_df size overlap w w'
    (contents ids : Series) (chunks_df : DataFrame) :
  book_df !! "processed_content" = Some contents →
  book_df !! "str_idx" = Some ids →
  create_book_chunks book_df size overlap w = (Ok (Some chunks_df), w') →
  ∃ partss : list (list string),
    Forall2 (λ c parts, ∃ text,
               c = Str text ∧ split_text size overlap text = Ok parts)
      contents partss
    ∧ chunks_df !! "chunk" = Some (Str <$> concat partss)
    ∧ chunks_df !! "str_idx"
      = Some (concat (zip_with (λ id parts, replicate (length parts) id)
                        ids partss)).
Proof.
  intros Hcontents Hids Hrun.
  apply create_book_chunks_Ok in Hrun
    as (contents' & chunks & w1 & Hc' & Hloop & [(? & _)|(Hr & _)]); [done|].
  assert (contents' = contents) as -> by congruence.
  injection Hr as ->. unfold enumerate in Hloop.
  apply (chapters_loop_parts book_df size overlap contents 0) in Hloop
    as (blocks & -> & Hblocks & Hall).
  rewrite Hids in Hblocks. cbn [default from_option id] in Hblocks.
  rewrite drop_0 in Hblocks.
  exists (blocks.*2). split; [done|]. split.
  - rewrite from_records_chunk, app_nil_l. do 2 f_equal.
    clear. induction blocks as [|b blocks IH]; [done|].
    cbn. by rewrite fmap_app, chapter_rows_texts, IH.
  - rewrite from_records_str_idx, app_nil_l. f_equal.
    pose proof Hall as Hlen. apply Forall2_length in Hlen.
    rewrite <- (zip_with_take_l' _ (length contents))
      by (rewrite <- Hlen; lia).
    rewrite <- Hblocks, zip_with_fst_snd.
    clear. induction blocks as [|[id parts] blocks IH]; [done|].
    rewrite !fmap_cons. cbn [concat uncurry fst snd].
    by rewrite fmap_app, chapter_rows_parents, IH.
Qed.

(** X15: an exception of the splitter on a chapter is not caught by the
    [except] clause, which only guards the write: it reaches the caller of
    [create_book_chunks], and no file has been written. *)
Theorem create_book_chunks_splitter_error book_df size overlap w
    (ids : Series) (good : list string) (bad : string) (rest : Series)
    (e : exn) :
  book_df !! "str_idx" = Some ids →
  book_df !! "processed_content" = Some ((Str <$> good) ++ Str bad :: rest) →
  (length good < length ids)%nat →
  Forall (λ text, ∃ parts, split_text size overlap text = Ok parts) good →
  split_text size overlap bad = Raise e →
  ∃ w', create_book_chunks book_df size overlap w = (Raise e, w')
        ∧ same_store w w'.
Proof.
  intros Hids Hcontents Hlen Hgood Hbad.
  destruct (chapters_loop_total book_df size overlap ids (Str <$> good) 0 []
              w Hids) as (chunks & w1 & Hloop).
  { rewrite length_fmap. lia. }
  { apply Forall_fmap. eapply list.Forall_impl; [exact Hgood|].
    intros text [parts Hparts]. by exists text, parts. }
  cbn [Nat.add] in Hloop.
  pose proof (chapters_loop_run _ _ _ _ _ _ _ _ Hloop) as Hstore.
  exists w1. split; [|done].
  unfold create_book_chunks. rewrite bind_run. unfold lift at 1.
  unfold df_getitem. rewrite Hcontents, bind_run.
  unfold enumerate. rewrite imap_app, foldM_app, Hloop.
  rewrite imap_cons. cbn [foldM]. rewrite bind_run.
  unfold chapter_step at 1. rewrite bind_run. unfold lift at 1.
  unfold df_getitem. rewrite Hids. cbn [mbind result_bind]. unfold iloc.
  destruct (lookup_lt_is_Some_2 ids (length good)) as [chapter_idx Hidx];
    [done|].
  rewrite length_fmap, Nat.add_0_r.
  rewrite (getitem_lookup _ _ _ Hidx), bind_run.
  by rewrite (create_splits_Raise _ _ _ _ _ Hbad).
Qed.

Lemma create_book_chunks_store book_df size overlap w r w' :
  create_book_chunks book_df size overlap w = (r, w') →
  write_denied w' = write_denied w
  ∧ read_denied w' = read_denied w
  ∧ searches w' = searches w
  ∧ (∀ path, path ≠ "data/chunks.csv" → files w' !! path = files w !! path)
  ∧ (∀ chunks_df, r = Ok (Some chunks_df) →
       files w' !! "data/chunks.csv" = Some (csv_image chunks_df))
  ∧ ("data/chunks.csv" ∈ write_denied w → files w' = files w)
  ∧ (∀ e, r = Raise e → files w' = files w).
Proof.
  destruct (book_df !! "processed_content") as [contents|] eqn:Hc.
  2:{ unfold create_book_chunks. rewrite bind_run. unfold lift at 1.
      unfold df_getitem. rewrite Hc. intros [= <- <-]. by repeat split. }
  destruct (foldM (chapter_step book_df size overlap) [] (enumerate contents)
              w) as [[chunks|e] w1] eqn:Hloop.
  - rewrite (create_book_chunks_after_loop _ _ _ _ _ _ _ Hc Hloop).
    apply chapters_loop_run in Hloop as (Hf & Hwd & Hrd & Hs).
    rewrite Hwd.
    destruct (decide ("data/chunks.csv" ∈ write_denied w)) as [Hd|Hd];
      [|destruct (csv_error (from_records chunks))];
      intros [= <- <-]; cbn; rewrite ?Hf;
      (split; [done|]); (split; [done|]); (split; [done|]);
      (split; [intros path Hp; by rewrite ?lookup_insert_ne|]);
      (split; [intros chunks_df [= <-]; by rewrite lookup_insert_eq|]);
      by split.
  - unfold create_book_chunks. rewrite bind_run. unfold lift at 1.
    unfold df_getitem. rewrite Hc, bind_run, Hloop.
    apply chapters_loop_run in Hloop as (Hf & Hwd & Hrd & Hs).
    intros [= <- <-]. rewrite Hf. by repeat split.
Qed.

(** X16: whatever its outcome, [create_book_chunks] leaves the protected
    paths and the search count as they were and changes no file but
    [data/chunks.csv]; when it returns a table, that file holds the rendering
    of the table; when the file cannot be opened for writing, and when the run
    ends with an exception, no file has changed at all. *)
Theorem create_book_chunks_files book_df size overlap w :
  let run := create_book_chunks book_df size overlap w in
  write_denied run.2 = write_denied w
  ∧ read_denied run.2 = read_denied w
  ∧ searches run.2 = searches w
  ∧ (∀ path, path ≠ "data/chunks.csv" →
       files run.2 !! path = files w !! path)
  ∧ (∀ chunks_df, run.1 = Ok (Some chunks_df) →
       files run.2 !! "data/chunks.csv" = Some (csv_image chunks_df))
  ∧ ("data/chunks.csv" ∈ write_denied w → files run.2 = files w)
  ∧ (∀ e, run.1 = Raise e → files run.2 = files w).
Proof.
  cbv zeta.
  destruct (create_book_chunks book_df size overlap w) as [r w'] eqn:Hrun.
  exact (create_book_chunks_store _ _ _ _ _ _ Hrun).
Qed.

(** X17: [create_book_chunks] raises [KeyError], leaving the world
    untouched, on a table without the column [processed_content], and on a
    table with at least one text but without the column [str_idx]. *)
Theorem create_book_chunks_missing_column book_df size overlap w :
  (book_df !! "processed_content" = None →
   create_book_chunks book_df size overlap w = (Raise KeyError, w))
  ∧ (∀ c contents,
       book_df !! "processed_content" = Some (c :: contents) →
       book_df !! "str_idx" = None →
       create_book_chunks book_df size overlap w = (Raise KeyError, w)).
Proof.
  split.
  - intros Hc. unfold create_book_chunks. rewrite bind_run. unfold lift at 1.
    unfold df_getitem. by rewrite Hc.
  - intros c contents Hc Hids. unfold create_book_chunks.
    rewrite bind_run. unfold lift at 1. unfold df_getitem at 1. rewrite Hc.
    rewrite bind_run. unfold enumerate. rewrite imap_cons. cbn [foldM].
    rewrite bind_run. unfold chapter_step at 1. rewrite bind_run.
    unfold lift at 1. unfold df_getitem. by rewrite Hids.
Qed.

End ChunkerMore.

(** X13: on a book table with as many identifiers as texts, every text being
    one the splitter accepts, [create_book_chunks] returns; what it returns
    is [None] exactly when [data/chunks.csv] cannot be opened for writing or
    [to_csv] fails on the chunk table, and the chunk table otherwise. *)
Theorem create_book_chunks_total {splitter : TextSplitter} {csv : CsvWriter}
    (book_df : DataFrame) (size : Z) (overlap : Q) (ids contents : Series)
    (partss : list (list string)) (w : World) :
  book_df !! "str_idx" = Some ids →
  book_df !! "processed_content" = Some contents →
  length ids = length contents →
  cut_into size overlap contents partss →
  ∃ r w', create_book_chunks book_df size overlap w = (Ok r, w')
          ∧ (r = None
             ↔ "data/chunks.csv" ∈ write_denied w
               ∨ is_Some (csv_error (from_records (book_rows ids partss))))
          ∧ (r ≠ None → r = Some (from_records (book_rows ids partss))).
Proof.
  intros Hids Hcontents Hlen Hall.
  destruct (book_loop_rows book_df size overlap ids contents partss w
              Hids Hlen Hall) as (w1 & Hloop & _ & Hwd & _).
  rewrite (create_book_chunks_after_loop _ _ _ _ _ _ _ Hcontents Hloop), Hwd.
  destruct (decide ("data/chunks.csv" ∈ write_denied w)) as [Hd|Hd].
  { eexists _, _. split; [reflexivity|]. split; [|done]. split; auto. }
  destruct (csv_error (from_records (book_rows ids partss))) as [e|] eqn:He.
  - eexists _, _. split; [reflexivity|]. split; [|done].
    split; [|done]. intros _. right. by exists e.
  - eexists _, _. split; [reflexivity|]. split; [|done].
    split; [done|]. by intros [?|[? ?]].
Qed.

(** The theorem on a book with an accented word and the ASCII writer: the
    file opens, the writer fails, and [None] is returned. *)
Lemma create_book_chunks_total_witness :
  ∃ r w',
    create_book_chunks (splitter:=Reference.window_splitter)
      (csv:=Reference.ascii_csv) Reference.book_accent 1000 (3 # 10)
      Reference.empty_world = (Ok r, w')
    ∧ (r = None
       ↔ "data/chunks.csv" ∈ write_denied Reference.empty_world
         ∨ is_Some (csv_error (CsvWriter:=Reference.ascii_csv)
                      (from_records
                         (book_rows [Str "ch1"] [["au café"]%string]))))
    ∧ (r ≠ None
       → r = Some (from_records (book_rows [Str "ch1"] [["au café"]%string]))).
Proof.
  apply (create_book_chunks_total (splitter:=Reference.window_splitter)
           (csv:=Reference.ascii_csv) Reference.book_accent 1000 (3 # 10)
           [Str "ch1"] [Str "au café"] [["au café"]%string]);
    [by vm_compute|by vm_compute|done|].
  constructor; [|constructor]. eexists. split; [reflexivity|by vm_compute].
Defined.

(** On that book the run leaves an empty [data/chunks.csv] behind. *)
Example create_book_chunks_accent :
  create_book_chunks (splitter:=Reference.window_splitter)
    (csv:=Reference.ascii_csv) Reference.book_accent 1000 (3 # 10)
    Reference.empty_world
  = (Ok None,
     mkWorld {["data/chunks.csv" := []]} ∅ ∅
       ["Created 1 chunks from 7 documents (passages)";
        "chunks CSV file could not be created."] 0).
Proof. by vm_compute. Qed.

Lemma create_book_chunks_content_witness :
  ∃ partss : list (list string),
    Forall2 (λ c parts, ∃ text,
               c = Str text
               ∧ split_text (TextSplitter:=Reference.window_splitter) 6
                   (3 # 10) text = Ok parts)
      [Str "call me ishmael"; Str "loomings"] partss
    ∧ Reference.book_chunks_df !! "chunk" = Some (Str <$> concat partss)
    ∧ Reference.book_chunks_df !! "str_idx"
      = Some (concat (zip_with (λ id parts, replicate (length parts) id)
                        [Str "ch1"; Str "ch2"] partss)).
Proof.
  apply (create_book_chunks_content (splitter:=Reference.window_splitter)
           (csv:=Reference.line_csv) Reference.book 6 (3 # 10)
           Reference.empty_world
           (create_book_chunks (splitter:=Reference.window_splitter)
              (csv:=Reference.line_csv) Reference.book 6 (3 # 10)
              Reference.empty_world).2);
    by vm_compute.
Defined.

Lemma create_book_chunks_splitter_error_witness :
  ∃ w',
    create_book_chunks (splitter:=Reference.window_splitter)
      (csv:=Reference.line_csv) Reference.book 0 (3 # 10)
      Reference.empty_world = (Raise ValueError, w')
    ∧ same_store Reference.empty_world w'.
Proof.
  apply (create_book_chunks_splitter_error
           (splitter:=Reference.window_splitter) (csv:=Reference.line_csv)
           Reference.book 0 (3 # 10) Reference.empty_world
           [Str "ch1"; Str "ch2"] [] "call me ishmael" [Str "loomings"]);
    [by vm_compute|by vm_compute|cbn; lia|constructor|by vm_compute].
Defined.

Lemma create_book_chunks_missing_column_witness :
  create_book_chunks (splitter:=Reference.window_splitter)
    (csv:=Reference.line_csv) ∅ 6 (3 # 10) Reference.empty_world
  = (Raise KeyError, Reference.empty_world)
  ∧ create_book_chunks (splitter:=Reference.window_splitter)
      (csv:=Reference.line_csv)
      (<["processed_content" := [Str "loomings"]]> ∅) 6 (3 # 10)
      Reference.empty_world
    = (Raise KeyError, Reference.empty_world).
Proof.
  split.
  - by apply (create_book_chunks_missing_column
                (splitter:=Reference.window_splitter)
                (csv:=Reference.line_csv)).
  - by eapply (proj2 (create_book_chunks_missing_column
                        (splitter:=Reference.window_splitter)
                        (csv:=Reference.line_csv) _ _ _ _)).
Defined.

(** ** Persistence, continued *)

(** X18: saving twice to the same path keeps the second matrix only:
    loading returns it, and the world is the one a single save of the second
    matrix gives. *)
Theorem save_embeddings_last_wins {A} {codec : Pickle A} (first second : A)
    (file_path : string) (w : World) :
  file_path ∉ write_denied w → file_path ∉ read_denied w →
  let w1 := (save_embeddings first file_path w).2 in
  let w2 := (save_embeddings second file_path w1).2 in
  load_embeddings file_path w2 = (Ok second, w2)
  ∧ w2 = (save_embeddings second file_path w).2.
Proof.
  intros Hw Hr. cbv zeta.
  rewrite (save_embeddings_written first) by done. cbn [snd].
  rewrite !(save_embeddings_written second) by done. cbn.
  rewrite insert_insert_eq. split; [|done].
  rewrite (load_embeddings_readable _ _ (dumps second));
    [by rewrite loads_dumps|done|cbn; apply lookup_insert_eq].
Qed.

Lemma save_embeddings_last_wins_witness :
  load_embeddings (codec:=Reference.bit_pickle) "data/embeddings.pkl"
    (save_embeddings (codec:=Reference.bit_pickle) [[7; 7]]
       "data/embeddings.pkl"
       (save_embeddings (codec:=Reference.bit_pickle) [[3; 1]; [10; 2]]
          "data/embeddings.pkl" Reference.empty_world).2).2
  = (Ok [[7; 7]],
     (save_embeddings (codec:=Reference.bit_pickle) [[7; 7]]
        "data/embeddings.pkl"
        (save_embeddings (codec:=Reference.bit_pickle) [[3; 1]; [10; 2]]
           "data/embeddings.pkl" Reference.empty_world).2).2)
  ∧ (save_embeddings (codec:=Reference.bit_pickle) [[7; 7]]
       "data/embeddings.pkl"
       (save_embeddings (codec:=Reference.bit_pickle) [[3; 1]; [10; 2]]
          "data/embeddings.pkl" Reference.empty_world).2).2
    = (save_embeddings (codec:=Reference.bit_pickle) [[7; 7]]
         "data/embeddings.pkl" Reference.empty_world).2.
Proof.
  apply (save_embeddings_last_wins (codec:=Reference.bit_pickle)
           [[3; 1]; [10; 2]] [[7; 7]] "data/embeddings.pkl"
           Reference.empty_world); cbn; apply not_elem_of_empty.
Defined.

(** X19: saving to one path does not change what loading from another path
    gives. *)
Theorem save_embeddings_other_path {A B} {codec : Pickle A}
    {codec' : Pickle B} (embeddings : A) (file_path other : string)
    (w : World) :
  other ≠ file_path →
  (load_embeddings (A:=B) other (save_embeddings embeddings file_path w).2).1
  = (load_embeddings (A:=B) other w).1.
Proof.
  intros Hne.
  destruct (decide (file_path ∈ write_denied w)) as [Hd|Hd].
  { by rewrite save_embeddings_denied. }
  rewrite save_embeddings_written by done. cbn [snd].
  unfold load_embeddings, mbind, M_bind, open_rb, read. cbn.
  destruct (decide (other ∈ read_denied w)); [done|].
  rewrite lookup_insert_ne by done.
  destruct (files w !! other) as [data|] eqn:Hf; [|done].
  cbn. rewrite lookup_insert_ne by done. by rewrite Hf.
Qed.

Lemma save_embeddings_other_path_witness :
  (load_embeddings (codec:=Reference.bit_pickle (A:=list (list Z)))
     "data/book_df.csv"
     (save_embeddings (codec:=Reference.bit_pickle) [[3; 1]; [10; 2]]
        "data/embeddings.pkl" Reference.library_world).2).1
  = (load_embeddings (codec:=Reference.bit_pickle (A:=list (list Z)))
       "data/book_df.csv" Reference.library_world).1.
Proof. by apply save_embeddings_other_path. Defined.

(** ** Index construction *)

(** X20: [build_faiss_flatl2_index] raises [IndexError] when the shape [dim]
    has fewer than two entries, and otherwise depends on [dim] only through
    [dim[1]], the number of columns. *)
Theorem build_faiss_flatl2_index_dim {V} {faiss : Faiss V}
    (embeddings : list V) :
  (∀ dim, len dim < 2 →
          build_faiss_flatl2_index embeddings dim = Raise IndexError)
  ∧ (∀ rows rows' columns rest rest',
       build_faiss_flatl2_index embeddings (rows :: columns :: rest)
       = build_faiss_flatl2_index embeddings (rows' :: columns :: rest')).
Proof.
  split.
  - intros dim Hdim. unfold build_faiss_flatl2_index.
    rewrite getitem_out_of_range; [done|lia].
  - intros rows rows' columns rest rest'. unfold build_faiss_flatl2_index.
    assert (∀ r t, getitem (r :: columns :: t) 1 = Ok columns) as Hdim
      by (intros r t; by apply (getitem_lookup _ 1)).
    by rewrite !Hdim.
Qed.

Lemma build_faiss_flatl2_index_dim_witness :
  build_faiss_flatl2_index (faiss:=Reference.flat_faiss) [] [0]
  = Raise IndexError.
Proof.
  apply (build_faiss_flatl2_index_dim (faiss:=Reference.flat_faiss)).
  by vm_compute.
Defined.

(** ** The entry point *)

Section Main.
Context {model : SentenceTransformer} {reader : CsvReader}
  {splitter : TextSplitter} {csv : CsvWriter} {codec : Pickle (list vector)}
  {np : NdArray vector} {faiss : Faiss vector}.
Implicit Types (w : World) (book_df passages_df : DataFrame).

Lemma load_df_unreadable dir_path file_name file_fmt w :
  ¬ readable w (dir_path +:+ "/" +:+ file_name +:+ "." +:+ file_fmt) →
  load_df dir_path file_name file_fmt w = (Raise OSError, w).
Proof.
  intros Hr. unfold load_df. cbv zeta. rewrite bind_run. unfold open_rb.
  destruct (decide (_ ∈ read_denied w)) as [|Hnd]; [done|].
  destruct (files w !! _) eqn:Hf; [|done].
  exfalso. apply Hr. split; [done|]. rewrite Hf. by eexists.
Qed.

Lemma load_df_table dir_path file_name file_fmt w df :
  table_at w (dir_path +:+ "/" +:+ file_name +:+ "." +:+ file_fmt) df →
  load_df dir_path file_name file_fmt w = (Ok df, w).
Proof.
  intros (Hnd & data & Hf & Hparse). unfold load_df. cbv zeta.
  rewrite bind_run. unfold open_rb. rewrite decide_False by done.
  rewrite Hf, bind_run. unfold read. rewrite Hf. cbn.
  unfold lift. by rewrite Hparse.
Qed.

Lemma main_loaded w book_df passages_df :
  table_at w "data/book_df.csv" book_df →
  table_at w "data/passages_df.csv" passages_df →
  main w = main_pipeline book_df w.
Proof.
  intros Hbook Hpassages. unfold main. rewrite bind_run.
  rewrite (load_df_table "data" "book_df" "csv" w book_df Hbook), bind_run.
  by rewrite (load_df_table "data" "passages_df" "csv" w passages_df
                Hpassages).
Qed.

(** X21: [main] raises [OSError], leaving the world untouched, when
    [data/book_df.csv] cannot be read, and also when the book table loads but
    [data/passages_df.csv] cannot be read, although nothing in [main] uses the
    passages table. *)
Theorem main_needs_both_tables w :
  (¬ readable w "data/book_df.csv" → main w = (Raise OSError, w))
  ∧ (∀ book_df, table_at w "data/book_df.csv" book_df →
       ¬ readable w "data/passages_df.csv" → main w = (Raise OSError, w)).
Proof.
  split.
  - intros Hr. unfold main. rewrite bind_run.
    by rewrite (load_df_unreadable "data" "book_df" "csv" w Hr).
  - intros book_df Hbook Hr. unfold main. rewrite bind_run.
    rewrite (load_df_table "data" "book_df" "csv" w book_df Hbook), bind_run.
    by rewrite (load_df_unreadable "data" "passages_df" "csv" w Hr).
Qed.

(** The chunker's part of [main], on a book that is ready: when the
    snapshot cannot be opened, and when it is written. *)
Lemma main_chunks_denied w book_df ids contents :
  book_ready book_df ids contents →
  "data/chunks.csv" ∈ write_denied w →
  ∃ w1,
    create_book_chunks book_df 1000 (3 # 10) w = (Ok None, w1)
    ∧ files w1 = files w
    ∧ list.last (stdout w1) = Some "chunks CSV file could not be created.".
Proof.
  intros (Hids & Hcontents & Hlen & Hall) Hd.
  destruct (cut_into_accepts _ _ _ Hall) as [partss Hcut].
  destruct (book_loop_rows book_df 1000 (3 # 10) ids contents partss w
              Hids Hlen Hcut) as (w1 & Hloop & Hf & Hwd & _).
  rewrite (create_book_chunks_after_loop _ _ _ _ _ _ _ Hcontents Hloop), Hwd.
  rewrite decide_True by done. eexists. split; [reflexivity|].
  split; [done|]. apply last_snoc.
Qed.

Lemma main_chunks_written w book_df ids contents partss :
  book_ready book_df ids contents →
  cut_into 1000 (3 # 10) contents partss →
  "data/chunks.csv" ∉ write_denied w →
  csv_error (from_records (book_rows ids partss)) = None →
  ∃ w1,
    create_book_chunks book_df 1000 (3 # 10) w
    = (Ok (Some (from_records (book_rows ids partss))), w1)
    ∧ write_denied w1 = write_denied w
    ∧ files w1
      = <["data/chunks.csv" := csv_image (from_records (book_rows ids partss))]>
          (files w).
Proof.
  intros (Hids & Hcontents & Hlen & _) Hcut Hd Hcsv.
  destruct (book_loop_rows book_df 1000 (3 # 10) ids contents partss w
              Hids Hlen Hcut) as (w1 & Hloop & Hf & Hwd & _).
  rewrite (create_book_chunks_after_loop _ _ _ _ _ _ _ Hcontents Hloop), Hwd.
  rewrite decide_False by done. rewrite Hcsv. eexists. split; [reflexivity|].
  split; [done|]. cbn. by rewrite Hf.
Qed.

(** X22: when both tables load, the book is ready and [data/chunks.csv]
    cannot be written, [main] ends with [TypeError] after the failure message
    has been printed, and no file has been created or changed; in particular
    no embeddings are saved. *)
Theorem main_chunks_unwritable w book_df passages_df ids contents :
  table_at w "data/book_df.csv" book_df →
  table_at w "data/passages_df.csv" passages_df →
  book_ready book_df ids contents →
  "data/chunks.csv" ∈ write_denied w →
  ∃ w', main w = (Raise TypeError, w')
        ∧ files w' = files w
        ∧ list.last (stdout w')
          = Some "chunks CSV file could not be created.".
Proof.
  intros Hbook Hpassages Hready Hdenied.
  rewrite (main_loaded w book_df passages_df Hbook Hpassages).
  destruct (main_chunks_denied w book_df ids contents Hready Hdenied)
    as (w1 & Hrun & Hfiles & Hout).
  exists w1. unfold main_pipeline. rewrite bind_run, Hrun.
  split; [done|]. by split.
Qed.

(** X23: when both tables load, the book is ready, its texts being cut by
    the splitter into [partss], both output paths can be opened for writing
    and [to_csv] does not fail, [main] leaves in [data/chunks.csv] the
    rendering of the chunk table of the book (one row per chunk: the chapter's
    identifier, the chunk's position in the chapter, the chunk) and in
    [data/embeddings.pkl] the embeddings of all the chunks of the book, in
    book order, but the last; it ends normally when the index can be built
    from them and with the error of the index construction otherwise. *)
Theorem main_persists w book_df passages_df ids contents
    (partss : list (list string)) :
  table_at w "data/book_df.csv" book_df →
  table_at w "data/passages_df.csv" passages_df →
  book_ready book_df ids contents →
  cut_into 1000 (3 # 10) contents partss →
  "data/chunks.csv" ∉ write_denied w →
  csv_error (from_records (book_rows ids partss)) = None →
  "data/embeddings.pkl" ∉ write_denied w →
  ∃ w' : World,
    let chunks := concat partss in
    let embeddings := embed <$> take (length chunks - 1) chunks in
    main w
    = (match build_faiss_flatl2_index embeddings (shape embeddings) with
       | Ok _ => Ok tt
       | Raise e => Raise e
       end, w')
    ∧ files w' !! "data/chunks.csv"
      = Some (csv_image (from_records (book_rows ids partss)))
    ∧ files w' !! "data/embeddings.pkl" = Some (dumps embeddings).
Proof.
  intros Hbook Hpassages Hready Hcut Hcsv Hrender Hpkl.
  rewrite (main_loaded w book_df passages_df Hbook Hpassages).
  destruct (main_chunks_written w book_df ids contents partss Hready Hcut
              Hcsv Hrender) as (w1 & Hrun & Hwd & Hfiles).
  assert (length ids = length partss) as Hlen.
  { destruct Hready as (_ & _ & Hlen & _). rewrite Hlen.
    by eapply Forall2_length. }
  set (embeddings :=
         embed <$> take (length (concat partss) - 1) (concat partss)).
  exists (mkWorld (<["data/embeddings.pkl" := dumps embeddings]> (files w1))
            (write_denied w1) (read_denied w1) (stdout w1) (searches w1)).
  cbv zeta. fold embeddings. split; [|split].
  - unfold main_pipeline. rewrite bind_run, Hrun, bind_run.
    unfold lift at 1, embedding_model.
    rewrite (embedd_dataset_chunk_column (book_rows ids partss)).
    rewrite <- (length_fmap snd (book_rows ids partss)).
    rewrite (book_rows_texts ids partss Hlen). fold embeddings.
    rewrite bind_run, save_embeddings_written by (by rewrite Hwd).
    cbv zeta. rewrite bind_run. unfold lift.
    by destruct (build_faiss_flatl2_index embeddings (shape embeddings)).
  - cbn. rewrite lookup_insert_ne by done. rewrite Hfiles.
    apply lookup_insert_eq.
  - cbn. apply lookup_insert_eq.
Qed.

(** X24: when both tables load, the book is ready, its texts being cut by
    the splitter into [partss], and [data/chunks.csv] is written but
    [data/embeddings.pkl] cannot be opened for writing, [main] ends with
    [OSError] and the only file changed is [data/chunks.csv], which holds the
    rendering of the chunk table of the book. *)
Theorem main_embeddings_unwritable w book_df passages_df ids contents
    (partss : list (list string)) :
  table_at w "data/book_df.csv" book_df →
  table_at w "data/passages_df.csv" passages_df →
  book_ready book_df ids contents →
  cut_into 1000 (3 # 10) contents partss →
  "data/chunks.csv" ∉ write_denied w →
  csv_error (from_records (book_rows ids partss)) = None →
  "data/embeddings.pkl" ∈ write_denied w →
  ∃ w' : World,
    main w = (Raise OSError, w')
    ∧ files w'
      = <["data/chunks.csv" := csv_image (from_records (book_rows ids partss))]>
          (files w).
Proof.
  intros Hbook Hpassages Hready Hcut Hcsv Hrender Hpkl.
  rewrite (main_loaded w book_df passages_df Hbook Hpassages).
  destruct (main_chunks_written w book_df ids contents partss Hready Hcut
              Hcsv Hrender) as (w1 & Hrun & Hwd & Hfiles).
  exists w1. split; [|done].
  unfold main_pipeline. rewrite bind_run, Hrun, bind_run.
  unfold lift at 1, embedding_model.
  rewrite (embedd_dataset_chunk_column (book_rows ids partss)).
  by rewrite bind_run, save_embeddings_denied by (by rewrite Hwd).
Qed.

End Main.

(** Membership of a path in the protected paths of a reference world. *)
Ltac path_denied :=
  cbn; apply elem_of_union_l, elem_of_singleton; reflexivity.
Ltac path_free :=
  cbn; rewrite elem_of_union, elem_of_singleton;
  intros [?|?%elem_of_empty]; done.

Lemma library_tables :
  table_at (reader:=Reference.table_reader) Reference.library_world
    "data/book_df.csv" Reference.book
  ∧ table_at (reader:=Reference.table_reader) Reference.library_world
      "data/passages_df.csv" ∅.
Proof.
  split; (split; [apply not_elem_of_empty|]); eexists; split;
    by vm_compute.
Qed.

Lemma library_book_ready :
  book_ready (splitter:=Reference.window_splitter) Reference.book
    [Str "ch1"; Str "ch2"] [Str "call me ishmael"; Str "loomings"].
Proof.
  split; [by vm_compute|]. split; [by vm_compute|]. split; [done|].
  repeat (apply Forall_cons; [eexists _, _; split; [reflexivity|by vm_compute]|]).
  apply Forall_nil.
Qed.

Lemma main_needs_both_tables_witness :
  main (model:=Reference.count_model) (reader:=Reference.table_reader)
    (splitter:=Reference.window_splitter) (csv:=Reference.table_csv)
    (codec:=Reference.bit_pickle) (np:=Reference.row_shape)
    (faiss:=Reference.flat_faiss) Reference.empty_world
  = (Raise OSError, Reference.empty_world)
  ∧ main (model:=Reference.count_model) (reader:=Reference.table_reader)
      (splitter:=Reference.window_splitter) (csv:=Reference.table_csv)
      (codec:=Reference.bit_pickle) (np:=Reference.row_shape)
      (faiss:=Reference.flat_faiss)
      (Reference.deny_read "data/passages_df.csv" Reference.library_world)
    = (Raise OSError,
       Reference.deny_read "data/passages_df.csv" Reference.library_world).
Proof.
  split.
  - apply (main_needs_both_tables (model:=Reference.count_model)
             (reader:=Reference.table_reader)
             (splitter:=Reference.window_splitter) (csv:=Reference.table_csv)
             (codec:=Reference.bit_pickle) (np:=Reference.row_shape)
             (faiss:=Reference.flat_faiss)).
    intros [_ [data Hdata]]. by vm_compute in Hdata.
  - apply (proj2 (main_needs_both_tables (model:=Reference.count_model)
                    (reader:=Reference.table_reader)
                    (splitter:=Reference.window_splitter)
                    (csv:=Reference.table_csv) (codec:=Reference.bit_pickle)
                    (np:=Reference.row_shape) (faiss:=Reference.flat_faiss)
                    _) Reference.book).
    + split; [path_free|]. eexists. split; by vm_compute.
    + intros [Hnd _]. apply Hnd. path_denied.
Defined.

Lemma main_chunks_unwritable_witness :
  ∃ w',
    main (model:=Reference.count_model) (reader:=Reference.table_reader)
      (splitter:=Reference.window_splitter) (csv:=Reference.table_csv)
      (codec:=Reference.bit_pickle) (np:=Reference.row_shape)
      (faiss:=Reference.flat_faiss)
      (Reference.deny_write "data/chunks.csv" Reference.library_world)
    = (Raise TypeError, w')
    ∧ files w'
      = files (Reference.deny_write "data/chunks.csv"
                 Reference.library_world)
    ∧ list.last (stdout w') = Some "chunks CSV file could not be created.".
Proof.
  apply (main_chunks_unwritable (model:=Reference.count_model)
           (reader:=Reference.table_reader)
           (splitter:=Reference.window_splitter) (csv:=Reference.table_csv)
           (codec:=Reference.bit_pickle) (np:=Reference.row_shape)
           (faiss:=Reference.flat_faiss) _ Reference.book ∅
           [Str "ch1"; Str "ch2"] [Str "call me ishmael"; Str "loomings"]).
  - apply library_tables.
  - apply library_tables.
  - apply library_book_ready.
  - path_denied.
Defined.

Lemma library_book_cut :
  cut_into (splitter:=Reference.window_splitter) 1000 (3 # 10)
    [Str "call me ishmael"; Str "loomings"]
    [["call me ishmael"]; ["loomings"]]%string.
Proof.
  repeat (constructor; [eexists; split; [reflexivity|by vm_compute]|]).
  constructor.
Qed.

(** The theorem on the two-chapter book: each chapter stays in one chunk,
    and only the first chunk is embedded. *)
Lemma main_persists_witness :
  ∃ w' : World,
    let chunks := concat [["call me ishmael"]; ["loomings"]]%string in
    let embeddings :=
      Reference.count_embed <$> take (length chunks - 1) chunks in
    main (model:=Reference.count_model) (reader:=Reference.table_reader)
      (splitter:=Reference.window_splitter) (csv:=Reference.table_csv)
      (codec:=Reference.bit_pickle) (np:=Reference.row_shape)
      (faiss:=Reference.flat_faiss) Reference.library_world
    = (match build_faiss_flatl2_index (faiss:=Reference.flat_faiss)
               embeddings (shape (NdArray:=Reference.row_shape) embeddings)
       with
       | Ok _ => Ok tt
       | Raise e => Raise e
       end, w')
    ∧ files w' !! "data/chunks.csv"
      = Some (csv_image (CsvWriter:=Reference.table_csv)
                (from_records
                   (book_rows [Str "ch1"; Str "ch2"]
                      [["call me ishmael"]; ["loomings"]]%string)))
    ∧ files w' !! "data/embeddings.pkl"
      = Some (dumps (Pickle:=Reference.bit_pickle) embeddings).
Proof.
  apply (main_persists (model:=Reference.count_model)
           (reader:=Reference.table_reader)
           (splitter:=Reference.window_splitter) (csv:=Reference.table_csv)
           (codec:=Reference.bit_pickle) (np:=Reference.row_shape)
           (faiss:=Reference.flat_faiss) Reference.library_world
           Reference.book ∅ [Str "ch1"; Str "ch2"]
           [Str "call me ishmael"; Str "loomings"]
           [["call me ishmael"]; ["loomings"]]%string).
  - apply library_tables.
  - apply library_tables.
  - apply library_book_ready.
  - apply library_book_cut.
  - apply not_elem_of_empty.
  - reflexivity.
  - apply not_elem_of_empty.
Defined.

Lemma main_embeddings_unwritable_witness :
  ∃ w' : World,
    main (model:=Reference.count_model) (reader:=Reference.table_reader)
      (splitter:=Reference.window_splitter) (csv:=Reference.table_csv)
      (codec:=Reference.bit_pickle) (np:=Reference.row_shape)
      (faiss:=Reference.flat_faiss)
      (Reference.deny_write "data/embeddings.pkl" Reference.library_world)
    = (Raise OSError, w')
    ∧ files w'
      = <["data/chunks.csv" :=
            csv_image (CsvWriter:=Reference.table_csv)
              (from_records
                 (book_rows [Str "ch1"; Str "ch2"]
                    [["call me ishmael"]; ["loomings"]]%string))]>
          (files (Reference.deny_write "data/embeddings.pkl"
                    Reference.library_world)).
Proof.
  apply (main_embeddings_unwritable (model:=Reference.count_model)
           (reader:=Reference.table_reader)
           (splitter:=Reference.window_splitter) (csv:=Reference.table_csv)
           (codec:=Reference.bit_pickle) (np:=Reference.row_shape)
           (faiss:=Reference.flat_faiss) _ Reference.book ∅
           [Str "ch1"; Str "ch2"] [Str "call me ishmael"; Str "loomings"]
           [["call me ishmael"]; ["loomings"]]%string).
  - apply library_tables.
  - apply library_tables.
  - apply library_book_ready.
  - apply library_book_cut.
  - path_free.
  - reflexivity.
  - path_denied.
Defined.
